(** * The review session of [srn]: note_reviewer.py

    A shallow embedding of [src/srn/note_reviewer.py] (class [NoteReviewer]
    and [difficulty_schema]) together with the pieces of the Python runtime
    it leans on: [int], [os.path.join], [str.endswith], list slicing, the
    insertion-ordered [dict], text files and the [json] module as called by
    the reviewer ([json.dump(obj, f, indent=4)] and [json.load(f)]).

    Conventions.
    - Text is a Rocq [string]; a character is a code point below 256.  The
      decoder refuses a [\uXXXX] escape above 255.
    - A Python [int] is a [Z].
    - A timestamp ([datetime.timestamp()]) is a [Z] counting microseconds
      since the epoch; the order of two timestamps is the order of the
      floats Python compares.
    - A JSON number is kept as its literal: what [json.dump] writes for a
      Python number ([repr]) and [json.load] reads back to the same number.
    - Exceptions are values of [exn]; a computation that may raise returns
      a [result].
    - The clock is a sequence of readings; a computation that reads it
      takes the number of readings made so far and returns the new one.
    - What the session prints and does is recorded as a list of [event]s. *)

From Stdlib Require Import ZArith String Ascii List Bool Arith Lia.
From Stdlib Require Import DecimalString DecimalZ.
From stdpp Require Import base option list gmap strings fin_maps.

Set Warnings "-register-all".

Local Open Scope string_scope.
Local Open Scope Z_scope.

(** ** Exceptions and results *)

Inductive exn : Type :=
| ValueError        (* int() on text that is not an integer literal *)
| SchemaError       (* schema.SchemaError *)
| EOFError          (* input() at end of input *)
| KeyError
| TypeError
| JSONDecodeError   (* json.load on a document that does not parse *)
| EngineError.      (* raised inside the fsrs collaborator *)

Inductive result (A : Type) : Type :=
| Ok (a : A)
| Raise (e : exn).
Arguments Ok {A} a.
Arguments Raise {A} e.

#[global] Instance result_ret : MRet result := fun A a => Ok a.
#[global] Instance result_bind : MBind result := fun A B f m =>
  match m with
  | Ok a => f a
  | Raise e => Raise e
  end.

Definition is_ok {A} (r : result A) : bool :=
  match r with Ok _ => true | Raise _ => false end.

(** [o or_raise e]: the value of [o], or exception [e]. *)
Definition or_raise {A} (o : option A) (e : exn) : result A :=
  match o with Some a => Ok a | None => Raise e end.

(** ** Characters and text *)

Definition chr (n : nat) : ascii := ascii_of_nat n.
Definition ord (c : ascii) : nat := nat_of_ascii c.

Definition quote_c : ascii := chr 34.       (* the double quote *)
Definition backslash_c : ascii := chr 92.
Definition nl_c : ascii := chr 10.

Definition str1 (c : ascii) : string := String c EmptyString.

Fixpoint string_rev_onto (s acc : string) : string :=
  match s with
  | EmptyString => acc
  | String c r => string_rev_onto r (String c acc)
  end.
Definition string_rev (s : string) : string := string_rev_onto s EmptyString.

(** [str.startswith] and [str.endswith]. *)
Definition startswith (s p : string) : bool := String.prefix p s.
Definition endswith (s suffix : string) : bool :=
  String.prefix (string_rev suffix) (string_rev s).

(** [posixpath.join(a, p)] for two components. *)
Definition os_path_join (a p : string) : string :=
  if startswith p "/" then p
  else if (String.eqb a "" || endswith a "/")%bool then a +:+ p
  else a +:+ "/" +:+ p.

(** *** [int(text)]

    The text is stripped of white space at both ends; an optional sign is
    followed by decimal digits, where single underscores may separate
    digits.  [None] stands for [ValueError]. *)

Definition py_isspace (c : ascii) : bool :=
  let n := ord c in
  ((9 <=? n) && (n <=? 13) || (n =? 32) || (n =? 133) || (n =? 160))%nat%bool.

Definition is_digit (c : ascii) : bool :=
  let n := ord c in ((48 <=? n) && (n <=? 57))%nat%bool.

Definition digit_val (c : ascii) : Z := Z.of_nat (ord c - 48).

Fixpoint lstrip (s : string) : string :=
  match s with
  | String c r => if py_isspace c then lstrip r else s
  | EmptyString => EmptyString
  end.

Definition strip (s : string) : string :=
  string_rev (lstrip (string_rev (lstrip s))).

(** Digits after the first one: [acc] is the value read so far, [us] tells
    that the previous character was an underscore. *)
Fixpoint int_digits (s : string) (acc : Z) (us : bool) : option Z :=
  match s with
  | EmptyString => if us then None else Some acc
  | String c r =>
      if is_digit c then int_digits r (10 * acc + digit_val c) false
      else if (Ascii.eqb c "_" && negb us)%bool then int_digits r acc true
      else None
  end.

Definition int_unsigned (s : string) : option Z :=
  match s with
  | String c r => if is_digit c then int_digits r (digit_val c) false else None
  | EmptyString => None
  end.

Definition py_int (text : string) : option Z :=
  match strip text with
  | String "-" r => Z.opp <$> int_unsigned r
  | String "+" r => int_unsigned r
  | s => int_unsigned s
  end.

(** *** List slicing [l[:q]] *)

Definition slice_to {A} (l : list A) (q : Z) : list A :=
  if 0 <=? q then take (Z.to_nat q) l
  else take (Z.to_nat (Z.of_nat (length l) + q)) l.

(** ** JSON values and Python dicts *)

Inductive json : Type :=
| JNull
| JBool (b : bool)
| JNum (literal : string)
| JStr (s : string)
| JList (items : list json)
| JDict (items : list (string * json)).

(** A Python [dict] with text keys: an association list in insertion
    order, each key at most once. *)
Abbreviation dict := (list (string * json)).

Fixpoint dict_get (k : string) (d : dict) : option json :=
  match d with
  | [] => None
  | (k', v) :: r => if String.eqb k k' then Some v else dict_get k r
  end.

(** [d[k] = v]: replaces the value in place, or appends a new item. *)
Fixpoint dict_set (k : string) (v : json) (d : dict) : dict :=
  match d with
  | [] => [(k, v)]
  | (k', v') :: r =>
      if String.eqb k k' then (k', v) :: r else (k', v') :: dict_set k v r
  end.

Definition dict_keys (d : dict) : list string := d.*1.

(** [dict(pairs)]: later pairs override earlier ones. *)
Definition dict_of_pairs (kvs : dict) : dict :=
  fold_left (fun d kv => dict_set kv.1 kv.2 d) kvs [].

(** [text in obj] for the values [json.load] can return. *)
Definition is_str (s : string) (v : json) : bool :=
  match v with JStr s' => String.eqb s s' | _ => false end.

Definition is_substring (p s : string) : bool :=
  match String.index 0 p s with Some _ => true | None => false end.

Definition py_contains (key : string) (obj : json) : result bool :=
  match obj with
  | JDict d => Ok (bool_decide (is_Some (dict_get key d)))
  | JList l => Ok (existsb (is_str key) l)
  | JStr s => Ok (is_substring key s)
  | _ => Raise TypeError
  end.

(** [obj[key]] with a text key. *)
Definition py_getitem (obj : json) (key : string) : result json :=
  match obj with
  | JDict d => or_raise (dict_get key d) KeyError
  | _ => Raise TypeError
  end.

(** [obj[key] = v] with a text key. *)
Definition py_setitem (obj : json) (key : string) (v : json) : result json :=
  match obj with
  | JDict d => Ok (JDict (dict_set key v d))
  | _ => Raise TypeError
  end.

(** ** The [json] module

    [json.dump(obj, f, indent=4)] writes [encode 0 obj]: the default
    [ensure_ascii] text escaping, item separator [","] and key separator
    [": "], one item per line, four spaces per nesting level. *)

Definition hex_digit (n : nat) : ascii :=
  if (n <? 10)%nat then chr (48 + n) else chr (87 + n).

(** The replacement of one character in [encode_basestring_ascii]. *)
Definition escape_char (c : ascii) : string :=
  let n := ord c in
  if (n =? 34)%nat then String backslash_c (str1 quote_c)
  else if (n =? 92)%nat then String backslash_c (str1 backslash_c)
  else if (n =? 8)%nat then "\b"
  else if (n =? 12)%nat then "\f"
  else if (n =? 10)%nat then "\n"
  else if (n =? 13)%nat then "\r"
  else if (n =? 9)%nat then "\t"
  else if ((32 <=? n) && (n <=? 126))%nat%bool then str1 c
  else "\u00" +:+ String (hex_digit (n / 16)) (str1 (hex_digit (n mod 16))).

Fixpoint escape_text (s : string) : string :=
  match s with
  | EmptyString => EmptyString
  | String c r => escape_char c +:+ escape_text r
  end.

Definition encode_basestring_ascii (s : string) : string :=
  String quote_c (escape_text s +:+ str1 quote_c).

Fixpoint spaces (n : nat) : string :=
  match n with O => EmptyString | S n => String " " (spaces n) end.

Definition newline_indent (lvl : nat) : string :=
  String nl_c (spaces (4 * lvl)).

(** The items of a non-empty list or dict, each written by [enc], with [sep]
    between two items and [close] after the last one. *)
Fixpoint items_text {A} (enc : A -> string) (sep close : string) (l : list A) : string :=
  match l with
  | [] => EmptyString
  | y :: l' =>
      enc y +:+
      match l' with
      | [] => close
      | _ :: _ => sep +:+ items_text enc sep close l'
      end
  end.

Fixpoint encode (lvl : nat) (v : json) : string :=
  match v with
  | JNull => "null"
  | JBool true => "true"
  | JBool false => "false"
  | JNum x => x
  | JStr s => encode_basestring_ascii s
  | JList l =>
      match l with
      | [] => "[]"
      | _ :: _ =>
          "[" +:+ newline_indent (S lvl) +:+
          items_text (encode (S lvl))
            ("," +:+ newline_indent (S lvl)) (newline_indent lvl +:+ "]") l
      end
  | JDict d =>
      match d with
      | [] => "{}"
      | _ :: _ =>
          "{" +:+ newline_indent (S lvl) +:+
          items_text
            (fun kv => encode_basestring_ascii (fst kv) +:+ ": " +:+ encode (S lvl) (snd kv))
            ("," +:+ newline_indent (S lvl)) (newline_indent lvl +:+ "}") d
      end
  end.

Definition json_dumps (obj : json) : string := encode 0 obj.

(** [json.load(f)]: the decoder of [json.decoder] and [json.scanner]. *)

Definition is_ws (c : ascii) : bool :=
  let n := ord c in ((n =? 32) || (n =? 9) || (n =? 10) || (n =? 13))%nat%bool.

Fixpoint skip_ws (s : string) : string :=
  match s with
  | String c r => if is_ws c then skip_ws r else s
  | EmptyString => EmptyString
  end.

Definition hex_val (c : ascii) : option nat :=
  let n := ord c in
  if ((48 <=? n) && (n <=? 57))%nat%bool then Some (n - 48)%nat
  else if ((97 <=? n) && (n <=? 102))%nat%bool then Some (n - 87)%nat
  else if ((65 <=? n) && (n <=? 70))%nat%bool then Some (n - 55)%nat
  else None.

(** The code point of a [\uXXXX] escape, given its four digits. *)
Definition decode_uXXXX (a b c d : ascii) : option nat :=
  x3 ← hex_val a; x2 ← hex_val b; x1 ← hex_val c; x0 ← hex_val d;
  Some (((x3 * 16 + x2) * 16 + x1) * 16 + x0)%nat.

(** The [BACKSLASH] table of one-letter escapes. *)
Definition unescape (e : ascii) : option ascii :=
  let n := ord e in
  if (n =? 34)%nat then Some quote_c
  else if (n =? 92)%nat then Some backslash_c
  else if (n =? 47)%nat then Some "/"%char
  else if (n =? 98)%nat then Some (chr 8)
  else if (n =? 102)%nat then Some (chr 12)
  else if (n =? 110)%nat then Some (chr 10)
  else if (n =? 114)%nat then Some (chr 13)
  else if (n =? 116)%nat then Some (chr 9)
  else None.

(** [scanstring]: the text after the opening quote, up to and including the
    closing one.  A raw control character is refused (strict mode); an
    escape above code point 255 names a character outside this model and
    is refused as well. *)
Fixpoint scanstring (s : string) : option (string * string) :=
  match s with
  | EmptyString => None
  | String c r =>
      if Ascii.eqb c quote_c then Some (EmptyString, r)
      else if Ascii.eqb c backslash_c then
        match r with
        | EmptyString => None
        | String e r1 =>
            if Ascii.eqb e "u" then
              match r1 with
              | String a (String b (String c' (String d r2))) =>
                  match decode_uXXXX a b c' d with
                  | Some n =>
                      if (n <? 256)%nat then
                        match scanstring r2 with
                        | Some (t, r') => Some (String (chr n) t, r')
                        | None => None
                        end
                      else None
                  | None => None
                  end
              | _ => None
              end
            else
              match unescape e with
              | Some ch =>
                  match scanstring r1 with
                  | Some (t, r') => Some (String ch t, r')
                  | None => None
                  end
              | None => None
              end
        end
      else if (ord c <? 32)%nat then None
      else
        match scanstring r with
        | Some (t, r') => Some (String c t, r')
        | None => None
        end
  end.

(** Numbers, after [NUMBER_RE]: an optional minus sign, then either a
    single 0 or a nonzero digit followed by digits; an optional fraction
    (a dot and at least one digit); an optional exponent (e or E, an
    optional sign, at least one digit). *)
Definition is_numchar (c : ascii) : bool :=
  (is_digit c || Ascii.eqb c "-" || Ascii.eqb c "+" || Ascii.eqb c "."
   || Ascii.eqb c "e" || Ascii.eqb c "E")%bool.

Fixpoint all_chars (p : ascii -> bool) (s : string) : bool :=
  match s with
  | EmptyString => true
  | String c r => (p c && all_chars p r)%bool
  end.

Fixpoint skip_digits (s : string) : string :=
  match s with
  | String c r => if is_digit c then skip_digits r else s
  | EmptyString => EmptyString
  end.

Definition exp_part (s : string) : bool :=
  match s with
  | EmptyString => true
  | String e r =>
      if (Ascii.eqb e "e" || Ascii.eqb e "E")%bool then
        let r1 := match r with
                  | String sg r' =>
                      if (Ascii.eqb sg "+" || Ascii.eqb sg "-")%bool then r' else r
                  | EmptyString => r
                  end in
        match r1 with
        | String d r2 => (is_digit d && String.eqb (skip_digits r2) "")%bool
        | EmptyString => false
        end
      else false
  end.

Definition frac_exp_part (s : string) : bool :=
  match s with
  | String "." (String d r) => (is_digit d && exp_part (skip_digits r))%bool
  | _ => exp_part s
  end.

Definition number_grammar (s : string) : bool :=
  let s1 := match s with String "-" r => r | _ => s end in
  match s1 with
  | String "0" r => frac_exp_part r
  | String c r => (is_digit c && frac_exp_part (skip_digits r))%bool
  | EmptyString => false
  end.

Definition json_number (s : string) : bool :=
  (all_chars is_numchar s && number_grammar s)%bool.

(** The longest run of number characters at the head of [s]. *)
Fixpoint span_numchars (s : string) : string * string :=
  match s with
  | String c r =>
      if is_numchar c then
        let '(a, b) := span_numchars r in (String c a, b)
      else (EmptyString, s)
  | EmptyString => (EmptyString, EmptyString)
  end.

Fixpoint drop_chars (n : nat) (s : string) : string :=
  match n, s with
  | S n, String _ r => drop_chars n r
  | _, _ => s
  end.

(** A constant of the scanner: [Some rest] when [s] starts with [kw]. *)
Definition keyword (kw s : string) : option string :=
  if String.prefix kw s then Some (drop_chars (String.length kw) s) else None.

Definition scan_number (s : string) : option (json * string) :=
  let '(lit, rest) := span_numchars s in
  if number_grammar lit then Some (JNum lit, rest)
  else
    match keyword "NaN" s, keyword "Infinity" s, keyword "-Infinity" s with
    | Some r, _, _ => Some (JNum "NaN", r)
    | _, Some r, _ => Some (JNum "Infinity", r)
    | _, _, Some r => Some (JNum "-Infinity", r)
    | _, _, _ => None
    end.

(** [scan_once], [JSONArray] and [JSONObject].  The recursion of the
    decoder is bounded by [n]; the length of the text is always enough
    (see [json_loads]). *)
Fixpoint scan_once (n : nat) (s : string) : option (json * string) :=
  match n with
  | O => None
  | S n =>
      match s with
      | EmptyString => None
      | String c r =>
          if Ascii.eqb c quote_c then
            match scanstring r with
            | Some (t, r') => Some (JStr t, r')
            | None => None
            end
          else if Ascii.eqb c "{" then
            match skip_ws r with
            | EmptyString => None
            | String c1 r1 =>
                if Ascii.eqb c1 "}" then Some (JDict [], r1)
                else
                  match scan_members n (String c1 r1) with
                  | Some (kvs, r') => Some (JDict (dict_of_pairs kvs), r')
                  | None => None
                  end
            end
          else if Ascii.eqb c "[" then
            match skip_ws r with
            | EmptyString => None
            | String c1 r1 =>
                if Ascii.eqb c1 "]" then Some (JList [], r1)
                else
                  match scan_items n (String c1 r1) with
                  | Some (vs, r') => Some (JList vs, r')
                  | None => None
                  end
            end
          else
            match keyword "null" s, keyword "true" s, keyword "false" s with
            | Some r', _, _ => Some (JNull, r')
            | _, Some r', _ => Some (JBool true, r')
            | _, _, Some r' => Some (JBool false, r')
            | _, _, _ => scan_number s
            end
      end
  end
with scan_items (n : nat) (s : string) : option (list json * string) :=
  match n with
  | O => None
  | S n =>
      match scan_once n s with
      | Some (v, r) =>
          match skip_ws r with
          | EmptyString => None
          | String c1 r1 =>
              if Ascii.eqb c1 "," then
                match scan_items n (skip_ws r1) with
                | Some (vs, r') => Some (v :: vs, r')
                | None => None
                end
              else if Ascii.eqb c1 "]" then Some ([v], r1)
              else None
          end
      | None => None
      end
  end
with scan_members (n : nat) (s : string) : option (dict * string) :=
  match n with
  | O => None
  | S n =>
      match s with
      | EmptyString => None
      | String q r =>
          if Ascii.eqb q quote_c then
            match scanstring r with
            | Some (k, r1) =>
                match skip_ws r1 with
                | EmptyString => None
                | String c2 r2 =>
                    if Ascii.eqb c2 ":" then
                      match scan_once n (skip_ws r2) with
                      | Some (v, r3) =>
                          match skip_ws r3 with
                          | EmptyString => None
                          | String c4 r4 =>
                              if Ascii.eqb c4 "," then
                                match scan_members n (skip_ws r4) with
                                | Some (kvs, r') => Some ((k, v) :: kvs, r')
                                | None => None
                                end
                              else if Ascii.eqb c4 "}" then Some ([(k, v)], r4)
                              else None
                          end
                      | None => None
                      end
                    else None
                end
            | None => None
            end
          else None
      end
  end.

(** [json.loads]: one value, white space allowed around it, nothing else
    after it.  [None] stands for [JSONDecodeError]. *)
Definition json_loads (text : string) : option json :=
  match scan_once (S (String.length text)) (skip_ws text) with
  | Some (v, r) => if String.eqb (skip_ws r) "" then Some v else None
  | None => None
  end.

(** ** Well-formed values

    What [json.dump] is given and what [json.load] returns: number literals
    that follow the grammar, and dicts whose keys are distinct. *)

Fixpoint json_ok (v : json) : bool :=
  match v with
  | JNum x => json_number x
  | JList l => forallb json_ok l
  | JDict d =>
      (bool_decide (NoDup d.*1) && forallb (fun kv => json_ok (snd kv)) d)%bool
  | _ => true
  end.

(** The depth the decoder needs for a value. *)
Fixpoint need (v : json) : nat :=
  match v with
  | JList l => S (list_sum (map (fun x => S (need x)) l))
  | JDict d => S (list_sum (map (fun kv => S (need (snd kv))) d))
  | _ => 1
  end.

(** A text that cannot continue a number literal. *)
Definition delimited (s : string) : Prop :=
  match s with
  | EmptyString => True
  | String c _ => is_numchar c = false
  end.

(** Every encoded value starts with a character that is neither white
    space nor a closing bracket. *)
Definition opens_value (s : string) : Prop :=
  exists c r, s = String c r /\ is_ws c = false
              /\ Ascii.eqb c "]" = false /\ Ascii.eqb c "}" = false.

(** A value that is read back from its encoding, whatever follows. *)
Definition reads_back (v : json) : Prop :=
  json_ok v = true ->
  forall (lvl n : nat) (rest : string),
    (need v <= n)%nat -> delimited rest ->
    scan_once n (encode lvl v +:+ rest) = Some (v, rest).

(** The characters a scanner has read when it leaves [r] of [s], and what
    it means for a bound [n] on the decoder not to matter: a parse found
    within [n] is found within any bound that covers what was read. *)
Definition consumed (s r : string) : nat := (String.length s - String.length r)%nat.

Definition fuel_ok {A} (f : nat -> string -> option (A * string)) (n : nat) : Prop :=
  forall s x r,
    f n s = Some (x, r) ->
    (String.length r < String.length s)%nat /\
    forall m, (consumed s r <= m)%nat -> f m s = Some (x, r).

(** ** Collaborators

    The scheduling engine ([fsrs]) is not part of the repository: the
    reviewer only calls it.  [Card()] and [review_card] read the clock, so
    they take the current instant. *)

Record Fsrs : Type := {
  Card : Type;
  ReviewLog : Type;
  Card_new : Z -> Card;                          (* Card() *)
  Card_from_dict : json -> result Card;          (* Card.from_dict *)
  Card_to_dict : Card -> json;                   (* card.to_dict() *)
  Card_due : Card -> Z;                          (* card.due.timestamp() *)
  ReviewLog_from_dict : json -> result ReviewLog;
  ReviewLog_to_dict : ReviewLog -> json;
  review_card : Z -> Card -> Z -> Card * ReviewLog  (* FSRS().review_card *)
}.

(** What the operating system answers: [os.path.expanduser], [os.walk]
    (the triples [(root, dirs, files)] in walk order), the clock (its
    successive readings) and the local date of a reading, formatted by
    [strftime("%Y-%m-%d")]. *)
Record Host : Type := {
  expanduser : string -> string;
  os_walk : string -> list (string * list string * list string);
  now : nat -> Z;
  today_str : Z -> string
}.

(** ** Files

    A file system maps a path to the text of the file. The three effects of
    [with open(path, "w") as f: json.dump(obj, f, indent=4)] are kept
    apart, so that the states an interruption can leave behind are the
    states between them. *)

Inductive file_op : Type :=
| OpenW (path : string)                      (* open(path, "w"): create or truncate *)
| WriteText (path : string) (text : string)  (* f.write(text): append *)
| CloseF (path : string).                    (* leaving the with block *)

Definition apply_op (fs : gmap string string) (op : file_op) : gmap string string :=
  match op with
  | OpenW p => <[p := EmptyString]> fs
  | WriteText p text => <[p := default EmptyString (fs !! p) +:+ text]> fs
  | CloseF _ => fs
  end.

Definition run_ops (ops : list file_op) (fs : gmap string string) : gmap string string :=
  foldl apply_op fs ops.


(** ** NoteReviewer *)

(** [difficulty_schema = And(Use(int), lambda n: 1 <= n <= 4)], applied to
    an [int]. *)
Definition difficulty_schema_validate (n : Z) : result Z :=
  if ((1 <=? n) && (n <=? 4))%bool then Ok n else Raise SchemaError.

Record NoteReviewer : Type := {
  notes_path : string;
  review_log_file : string;
  review_log : json
}.

(** The "Load review log" block of [__init__]. *)
Definition load_review_log (fs : gmap string string) (file : string) : result json :=
  match fs !! file with
  | Some text => or_raise (json_loads text) JSONDecodeError
  | None => Ok (JDict [])
  end.

Definition save_ops (file : string) (log : json) : list file_op :=
  [OpenW file; WriteText file (json_dumps log); CloseF file].

Definition save_review_log (file : string) (log : json) (fs : gmap string string)
  : gmap string string :=
  run_ops (save_ops file log) fs.

(** What the session prints and does, in order. *)
Inductive event : Type :=
| Present (note : string)                 (* print "Review: <note>" *)
| Retry                                   (* the message on stderr *)
| Reviewed (note : string) (rating : Z)   (* update_review_log(note, rating) *)
| Saved (text : string).                  (* save_review_log() wrote [text] *)

Inductive answer : Type :=
| Quit
| Difficulty (d : Z).

(** The [while True] loop of [review_notes] for one note.  Every round
    reads two lines: the acknowledgement and the answer. *)
Fixpoint ask_difficulty (note : string) (stdin : list string)
  : list event * result answer * list string :=
  match stdin with
  | [] => ([Present note], Raise EOFError, [])
  | _ack :: [] => ([Present note], Raise EOFError, [])
  | _ack :: ans :: rest =>
      if String.eqb ans "q" then ([Present note], Ok Quit, rest)
      else
        match py_int ans with
        | None => ([Present note], Raise ValueError, rest)
        | Some n =>
            match difficulty_schema_validate n with
            | Ok d => ([Present note], Ok (Difficulty d), rest)
            | Raise SchemaError =>
                let '(evs, r, rest') := ask_difficulty note rest in
                (Present note :: Retry :: evs, r, rest')
            | Raise e => ([Present note], Raise e, rest)
            end
        end
  end.

(** The state a session works on: the reviewer's store, the files, the
    lines still to be read, the number of clock readings taken and the
    events so far. *)
Record session : Type := {
  log : json;
  fs : gmap string string;
  stdin : list string;
  ticks : nat;
  trace : list event
}.

Section Reviewer.
Context (F : Fsrs) (H : Host).

(** [NoteReviewer.__init__]. *)
Definition init (fs : gmap string string) (path : string) (log_file : option string)
  : result NoteReviewer :=
  let np := expanduser H path in
  let lf := match log_file with
            | None => os_path_join np "review_log.json"
            | Some f => expanduser H f
            end in
  v ← load_review_log fs lf;
  Ok {| notes_path := np; review_log_file := lf; review_log := v |}.

(** The list [notes] of [select_notes_for_review]. *)
Definition discover (walk : list (string * list string * list string)) : list string :=
  concat (map (fun '(root, _, files) =>
                 map (os_path_join root)
                     (List.filter (fun file => endswith file ".md") files))
              walk).

(** The loop that fills [notes_due]; [t] counts the clock readings. *)
Fixpoint notes_due (store : json) (notes : list string) (t : nat)
  : result (list string * nat) :=
  match notes with
  | [] => Ok ([], t)
  | note :: rest =>
      known ← py_contains note store;
      if known : bool then
        card_data ← py_getitem store note;
        c ← py_getitem card_data "card";
        card ← Card_from_dict F c;
        let due := Card_due F card <=? now H t in
        '(l, t') ← notes_due store rest (S t);
        Ok (if due then note :: l else l, t')
      else
        '(l, t') ← notes_due store rest t;
        Ok (note :: l, t')
  end.

Definition select_notes_for_review (self : NoteReviewer) (q : Z) (t : nat)
  : result (list string * nat) :=
  let notes := discover (os_walk H (notes_path self)) in
  '(due, t') ← notes_due (review_log self) notes t;
  Ok (slice_to due q, t').

(** The record written by [update_review_log]. *)
Definition make_record (today : string) (card : Card F) (rl : ReviewLog F) : json :=
  JDict [("last_reviewed", JStr today);
         ("card", Card_to_dict F card);
         ("review_log", ReviewLog_to_dict F rl)].

Definition update_review_log (store : json) (note : string) (rating : Z) (t : nat)
  : result (json * nat) :=
  let today := today_str H (now H t) in
  known ← py_contains note store;
  '(card, t1) ← (if known : bool then
                   card_data ← py_getitem store note;
                   c ← py_getitem card_data "card";
                   card ← Card_from_dict F c;
                   r ← py_getitem card_data "review_log";
                   _ ← ReviewLog_from_dict F r;
                   Ok (card, S t)
                 else Ok (Card_new F (now H (S t)), S (S t)));
  let '(card', rl') := review_card F (now H t1) card rating in
  store' ← py_setitem store note (make_record today card' rl');
  Ok (store', S t1).

(** The [for] loop of [review_notes]. *)
Fixpoint review_loop (file : string) (notes : list string) (st : session)
  : result unit * session :=
  match notes with
  | [] => (Ok (), st)
  | note :: rest =>
      let '(evs, ans, stdin') := ask_difficulty note (stdin st) in
      let st1 := {| log := log st; fs := fs st; stdin := stdin';
                    ticks := ticks st; trace := trace st ++ evs |} in
      match ans with
      | Raise e => (Raise e, st1)
      | Ok Quit => (Ok (), st1)
      | Ok (Difficulty difficulty) =>
          let rating := 5 - difficulty in
          match update_review_log (log st1) note rating (ticks st1) with
          | Raise e => (Raise e, st1)
          | Ok (store', t') =>
              review_loop file rest
                {| log := store';
                   fs := save_review_log file store' (fs st1);
                   stdin := stdin';
                   ticks := t';
                   trace := trace st1 ++ [Reviewed note rating; Saved (json_dumps store')] |}
          end
      end
  end.

(** [review_notes], with the default limit [q = 5]. *)
Definition review_notes (self : NoteReviewer) (st : session) : result unit * session :=
  match select_notes_for_review self 5 (ticks st) with
  | Raise e => (Raise e, st)
  | Ok (notes_for_review, t) =>
      review_loop (review_log_file self) notes_for_review
        {| log := log st; fs := fs st; stdin := stdin st; ticks := t; trace := trace st |}
  end.

(** [ReviewCLI.run]: build the reviewer, then review. *)
Definition run (path : string) (log_file : option string)
    (files : gmap string string) (lines : list string)
  : result unit * session :=
  match init files path log_file with
  | Raise e =>
      (Raise e, {| log := JNull; fs := files; stdin := lines; ticks := 0; trace := [] |})
  | Ok self =>
      review_notes self
        {| log := review_log self; fs := files; stdin := lines; ticks := 0; trace := [] |}
  end.

End Reviewer.

(** ** Vocabulary of the specification

    Answers, turns of the prompt, the events and the stores they lead to. *)


(** An answer that is taken as a difficulty. *)
Definition accepted (x : string) : option Z :=
  match py_int x with
  | Some n => if ((1 <=? n) && (n <=? 4))%bool then Some n else None
  | None => None
  end.

(** An answer that reads as an integer outside of 1..4. *)
Definition rejected (x : string) : bool :=
  match py_int x with
  | Some n => negb ((1 <=? n) && (n <=? 4))
  | None => false
  end.

(** The lines typed in some rounds of the prompt: an acknowledgement and
    an answer per round. *)
Definition lines (rounds : list (string * string)) : list string :=
  flat_map (fun p => [fst p; snd p]) rounds.

(** What the reviewer types for one note: rounds whose answer is sent back,
    then a last round. *)
Record turn : Type := {
  turn_note : string;
  turn_retries : list (string * string);
  turn_ack : string;
  turn_answer : string
}.

Definition turn_lines (tn : turn) : list string :=
  (lines (turn_retries tn) ++ [turn_ack tn; turn_answer tn])%list.

(** What the prompt prints during a turn. *)
Definition turn_asks (tn : turn) : list event :=
  (flat_map (fun _ => [Present (turn_note tn); Retry]) (turn_retries tn)
   ++ [Present (turn_note tn)])%list.

Definition retries_rejected (tn : turn) : bool :=
  forallb (fun p => rejected (snd p)) (turn_retries tn).

(** A turn that ends with a difficulty. *)
Definition rating_turn (tn : turn) : bool :=
  (retries_rejected tn && bool_decide (is_Some (accepted (turn_answer tn))))%bool.

(** The rating of a rating turn. *)
Definition turn_rating (tn : turn) : Z :=
  5 - default 0 (accepted (turn_answer tn)).

(** The texts written by the saves of a trace. *)
Definition saves (evs : list event) : list string :=
  omap (fun e => match e with Saved text => Some text | _ => None end) evs.






Section Stores.
Context (F : Fsrs) (H : Host).

(** The card the store holds for [note], if any. *)
Definition stored_card (d : dict) (note : string) : result (option (Card F)) :=
  match dict_get note d with
  | None => Ok None
  | Some card_data =>
      c ← py_getitem card_data "card";
      card ← Card_from_dict F c;
      Ok (Some card)
  end.

(** Every record the store holds for one of [notes] has a card the
    engine can read. *)
Definition readable (d : dict) (notes : list string) : bool :=
  forallb (fun note => is_ok (stored_card d note)) notes.



End Stores.

(** ** A small engine and host, to run the model on examples *)

Definition lit_of_Z (z : Z) : string := NilZero.string_of_int (Z.to_int z).
Definition Z_of_lit (s : string) : option Z := Z.of_int <$> NilZero.int_of_string s.

Definition demo_card_from_dict (j : json) : result (Z * Z) :=
  due ← py_getitem j "due";
  reps ← py_getitem j "reps";
  match due, reps with
  | JNum a, JNum b =>
      match Z_of_lit a, Z_of_lit b with
      | Some x, Some y => Ok (x, y)
      | _, _ => Raise ValueError
      end
  | _, _ => Raise TypeError
  end.

Definition demo_fsrs : Fsrs := {|
  Card := Z * Z;
  ReviewLog := Z;
  Card_new := fun t => (t, 0);
  Card_from_dict := demo_card_from_dict;
  Card_to_dict := fun c => JDict [("due", JNum (lit_of_Z c.1)); ("reps", JNum (lit_of_Z c.2))];
  Card_due := fun c => c.1;
  ReviewLog_from_dict := fun j =>
    r ← py_getitem j "rating";
    match r with
    | JNum a => or_raise (Z_of_lit a) ValueError
    | _ => Raise TypeError
    end;
  ReviewLog_to_dict := fun r => JDict [("rating", JNum (lit_of_Z r))];
  review_card := fun t c rating => ((t + rating * 86400000000, c.2 + 1), rating)
|}.

Definition demo_host : Host := {|
  expanduser := fun p => p;
  os_walk := fun top => [(top, ["sub"], ["a.md"; "todo.txt"; "b.md"]);
                         (os_path_join top "sub", [], ["c.md"])];
  now := fun t => 1700000000000000 + Z.of_nat t;
  today_str := fun _ => "2024-01-02"
|}.

Definition demo_reviewer (store : json) : NoteReviewer :=
  {| notes_path := "/w"; review_log_file := "/w/review_log.json"; review_log := store |}.

(** A store with one record, for the note [/w/a.md], whose card is due at
    the instant [due]. *)
Definition demo_store (due : Z) : dict :=
  [("/w/a.md",
    JDict [("last_reviewed", JStr "2024-01-01");
           ("card", JDict [("due", JNum (lit_of_Z due)); ("reps", JNum "1")]);
           ("review_log", JDict [("rating", JNum "3")])])].

Definition demo_turns : list turn :=
  [{| turn_note := "/w/a.md"; turn_retries := [("", "0"); ("", "5")];
      turn_ack := ""; turn_answer := "2" |};
   {| turn_note := "/w/b.md"; turn_retries := []; turn_ack := "ok"; turn_answer := " 4 " |}].

Definition demo_quit : turn :=
  {| turn_note := "/w/sub/c.md"; turn_retries := [("", "-1")];
     turn_ack := ""; turn_answer := "q" |}.

Definition demo_session : session :=
  {| log := JDict (demo_store 0);
     fs := {["/w/review_log.json" := json_dumps (JDict (demo_store 0))]};
     stdin := [""; "0"; ""; "5"; ""; "2"; "ok"; " 4 "; ""; "-1"; ""; "q"; "left over"];
     ticks := 0;
     trace := [] |}.

(** ** More vocabulary: what a session did

    The ratings handed to [update_review_log] in a trace, and the events a
    session added to the trace it started with. *)

Definition reviewed (evs : list event) : list (string * Z) :=
  omap (fun e => match e with Reviewed note r => Some (note, r) | _ => None end) evs.

Definition new_events (st st' : session) : list event :=
  drop (length (trace st)) (trace st').

(** The names of the files of a walk that end in [.md]. *)
Definition md_files (files : list string) : list string :=
  List.filter (fun file => endswith file ".md") files.

(** A host whose walk finds the single note [/w/a.md]. *)
Definition one_note_host : Host := {|
  expanduser := fun p => p;
  os_walk := fun top => [(top, [], ["a.md"; "notes.txt"])];
  now := fun t => 1700000000000000 + Z.of_nat t;
  today_str := fun _ => "2024-01-02"
|}.

(** A store whose record for [/w/a.md] has no card. *)
Definition cardless_store : dict :=
  [("/w/a.md", JDict [("last_reviewed", JStr "2024-01-01")])].

(** A store whose record for [/w/a.md] has a card but no review log. *)
Definition logless_store : dict :=
  [("/w/a.md",
    JDict [("last_reviewed", JStr "2024-01-01");
           ("card", JDict [("due", JNum "17"); ("reps", JNum "1")])])].

(** The review log the store holds for [note], if any, as the engine reads
    it. *)
Definition stored_review_log (F : Fsrs) (d : dict) (note : string)
  : result (option (ReviewLog F)) :=
  match dict_get note d with
  | None => Ok None
  | Some card_data =>
      r ← py_getitem card_data "review_log";
      rl ← ReviewLog_from_dict F r;
      Ok (Some rl)
  end.

Definition is_dict (v : json) : bool :=
  match v with JDict _ => true | _ => false end.



(** A session whose log file holds a list. *)
Definition list_session : session :=
  {| log := JList [];
     fs := {["/w/review_log.json" := "[]"]};
     stdin := [""; "0"; ""; "5"; ""; "2"; "ok"; " 4 "; ""; "-1"; ""; "q"; "left over"];
     ticks := 0;
     trace := [] |}.

(** What holds between the state [st] a session starts in and the state
    [st'] it ends in, with [evs] the events it added, for the queue
    [notes] and the log file [file]. *)
Definition session_invariant (file : string) (notes : list string)
    (st st' : session) (evs : list event) : Prop :=
  trace st' = (trace st ++ evs)%list /\
  map fst (reviewed evs) `prefix_of` notes /\
  Forall (fun p => 1 <= snd p <= 4) (reviewed evs) /\
  length (saves evs) = length (reviewed evs) /\
  (forall other, other <> file -> fs st' !! other = fs st !! other) /\
  match last (saves evs) with
  | None => log st' = log st /\ fs st' = fs st
  | Some text => text = json_dumps (log st') /\ fs st' = <[file := text]> (fs st)
  end /\
  stdin st' `suffix_of` stdin st.


(** A text made of white space only. *)
Fixpoint blank (s : string) : bool :=
  match s with
  | EmptyString => true
  | String c r => (py_isspace c && blank r)%bool
  end.

(** * Proofs *)

(** ** Text *)

Lemma append_cons (x : ascii) (a b : string) :
  String x a +:+ b = String x (a +:+ b).
Proof. reflexivity. Qed.

Lemma append_nil_l (b : string) : "" +:+ b = b.
Proof. reflexivity. Qed.

Lemma append_assoc (a b c : string) : (a +:+ b) +:+ c = a +:+ (b +:+ c).
Proof.
  induction a as [|x a IH]; [reflexivity |].
  rewrite !append_cons. f_equal. exact IH.
Qed.

Lemma append_nil_r (a : string) : a +:+ "" = a.
Proof.
  induction a as [|x a IH]; [reflexivity |].
  rewrite append_cons. f_equal. exact IH.
Qed.

Lemma length_append (a b : string) :
  String.length (a +:+ b) = (String.length a + String.length b)%nat.
Proof.
  induction a as [|x a IH]; [reflexivity |].
  rewrite append_cons. simpl. f_equal. exact IH.
Qed.

(** ** The decoder reads back what the encoder writes *)

(** One escaped character is read back as that character. *)
Lemma scanstring_escape_char (c : ascii) (r : string) :
  scanstring (escape_char c +:+ r) =
  match scanstring r with
  | Some (t, r') => Some (String c t, r')
  | None => None
  end.
Proof.
  destruct c as [[] [] [] [] [] [] [] []]; reflexivity.
Qed.

Lemma scanstring_escape_text (s rest : string) :
  scanstring (escape_text s +:+ String quote_c rest) = Some (s, rest).
Proof.
  induction s as [|c s IH]; cbn [escape_text].
  - reflexivity.
  - now rewrite append_assoc, scanstring_escape_char, IH.
Qed.

Lemma skip_ws_spaces (n : nat) (r : string) : skip_ws (spaces n +:+ r) = skip_ws r.
Proof. induction n as [|n IH]; [reflexivity | exact IH]. Qed.

Lemma skip_ws_newline_indent (lvl : nat) (r : string) :
  skip_ws (newline_indent lvl +:+ r) = skip_ws r.
Proof. exact (skip_ws_spaces (4 * lvl) r). Qed.

Lemma span_numchars_app (lit rest : string) :
  all_chars is_numchar lit = true -> delimited rest ->
  span_numchars (lit +:+ rest) = (lit, rest).
Proof.
  induction lit as [|c lit IH]; intros Hall Hd.
  - rewrite append_nil_l.
    destruct rest as [|c r]; simpl in *; [reflexivity | now rewrite Hd].
  - simpl in Hall. apply andb_prop in Hall as [Hc Hall].
    rewrite append_cons. simpl. rewrite Hc, (IH Hall Hd). reflexivity.
Qed.

(** A character that can start a number starts nothing else. *)
Lemma scan_once_numchar (n : nat) (c : ascii) (r : string) :
  is_numchar c = true -> scan_once (S n) (String c r) = scan_number (String c r).
Proof.
  destruct c as [[] [] [] [] [] [] [] []]; intros Hc;
    try discriminate Hc; reflexivity.
Qed.

Lemma numchar_not_ws (c : ascii) : is_numchar c = true -> is_ws c = false.
Proof. destruct c as [[] [] [] [] [] [] [] []]; intros Hc; try discriminate Hc; reflexivity. Qed.

Lemma numchar_not_closing (c : ascii) :
  is_numchar c = true -> Ascii.eqb c "]" = false /\ Ascii.eqb c "}" = false.
Proof.
  destruct c as [[] [] [] [] [] [] [] []]; intros Hc; try discriminate Hc;
    split; reflexivity.
Qed.

Lemma number_grammar_cons (lit : string) :
  number_grammar lit = true -> exists c r, lit = String c r.
Proof. destruct lit as [|c r]; [discriminate | eauto]. Qed.

Lemma scan_number_literal (lit rest : string) :
  json_number lit = true -> delimited rest ->
  scan_number (lit +:+ rest) = Some (JNum lit, rest).
Proof.
  unfold json_number. intros Hok Hd. apply andb_prop in Hok as [Hall Hg].
  unfold scan_number. rewrite (span_numchars_app _ _ Hall Hd), Hg. reflexivity.
Qed.

Lemma encode_opens (lvl : nat) (v : json) (rest : string) :
  json_ok v = true -> opens_value (encode lvl v +:+ rest).
Proof.
  unfold opens_value. destruct v as [|[]|lit|s|[|x l]|[|[k x] d]]; intros Hok;
    try (eexists _, _; repeat split; reflexivity).
  simpl in Hok. unfold json_number in Hok. apply andb_prop in Hok as [Hall Hg].
  destruct (number_grammar_cons _ Hg) as (c & r & ->).
  simpl in Hall. apply andb_prop in Hall as [Hc _].
  exists c, (r +:+ rest). destruct (numchar_not_closing _ Hc).
  repeat split; auto using numchar_not_ws.
Qed.

Lemma skip_ws_opens (s : string) : opens_value s -> skip_ws s = s.
Proof. intros (c & r & -> & Hws & _). simpl. now rewrite Hws. Qed.

(** Induction on values, with the hypothesis for every item of a list and
    every member of a dict. *)
Lemma json_nested_ind (P : json -> Prop) :
  P JNull -> (forall b, P (JBool b)) -> (forall x, P (JNum x)) ->
  (forall s, P (JStr s)) ->
  (forall l, Forall P l -> P (JList l)) ->
  (forall d, Forall (fun kv => P (snd kv)) d -> P (JDict d)) ->
  forall v, P v.
Proof.
  intros Hnull Hbool Hnum Hstr Hlist Hdict.
  fix IH 1. intros [|b|x|s|l|d].
  - exact Hnull.
  - apply Hbool.
  - apply Hnum.
  - apply Hstr.
  - apply Hlist. induction l as [|y l IHl]; constructor; [apply IH | exact IHl].
  - apply Hdict. induction d as [|[k y] d IHd]; constructor; [apply IH | exact IHd].
Qed.

Lemma scan_items_encode (lvl : nat) (l : list json) :
  Forall reads_back l -> forallb json_ok l = true -> l <> [] ->
  forall (n : nat) (rest : string),
    (list_sum (map (fun x => S (need x)) l) <= n)%nat ->
    scan_items n
      (items_text (encode (S lvl)) ("," +:+ newline_indent (S lvl))
                  (newline_indent lvl +:+ "]") l +:+ rest)
    = Some (l, rest).
Proof.
  induction 1 as [|y l Hy Hl IH]; intros Hok Hne n rest Hn; [congruence |].
  simpl in Hok. apply andb_prop in Hok as [Hoky Hokl].
  simpl in Hn. destruct n as [|n]; [lia |].
  cbn [items_text scan_items]. rewrite append_assoc.
  destruct l as [|z l].
  - rewrite (Hy Hoky); [| lia | reflexivity].
    rewrite append_assoc, skip_ws_newline_indent. reflexivity.
  - rewrite (Hy Hoky); [| lia | reflexivity].
    rewrite !append_assoc.
    change (skip_ws ("," +:+ ?r)) with (String ","%char r).
    cbn iota beta.
    assert (Ascii.eqb "," "," = true) as -> by reflexivity.
    rewrite skip_ws_newline_indent.
    rewrite skip_ws_opens.
    2:{ cbn [items_text]. rewrite append_assoc. apply encode_opens.
        simpl in Hokl. now apply andb_prop in Hokl as [? _]. }
    rewrite (IH Hokl); [reflexivity | congruence |].
    simpl in *. lia.
Qed.

Lemma scan_once_string (n : nat) (s rest : string) :
  scan_once (S n) (encode_basestring_ascii s +:+ rest) = Some (JStr s, rest).
Proof.
  change (encode_basestring_ascii s +:+ rest)
    with (String quote_c ((escape_text s +:+ str1 quote_c) +:+ rest)).
  rewrite append_assoc.
  change (str1 quote_c +:+ rest) with (String quote_c rest).
  cbn [scan_once].
  assert (Ascii.eqb quote_c quote_c = true) as -> by reflexivity.
  now rewrite scanstring_escape_text.
Qed.

(** Reading a key and the separator after it leaves the decoder in front
    of the value. *)
Lemma scan_members_key (n : nat) (k text : string) :
  opens_value text ->
  scan_members (S n) (encode_basestring_ascii k +:+ ": " +:+ text) =
  match scan_once n text with
  | Some (v, r3) =>
      match skip_ws r3 with
      | EmptyString => None
      | String c4 r4 =>
          if Ascii.eqb c4 "," then
            match scan_members n (skip_ws r4) with
            | Some (kvs, r') => Some ((k, v) :: kvs, r')
            | None => None
            end
          else if Ascii.eqb c4 "}" then Some ([(k, v)], r4)
          else None
      end
  | None => None
  end.
Proof.
  intros Hop.
  change (encode_basestring_ascii k +:+ ": " +:+ text)
    with (String quote_c ((escape_text k +:+ str1 quote_c) +:+ ": " +:+ text)).
  rewrite append_assoc.
  change (str1 quote_c +:+ ": " +:+ text)
    with (String quote_c (String ":" (String " " text))).
  cbn [scan_members].
  assert (Ascii.eqb quote_c quote_c = true) as -> by reflexivity.
  rewrite scanstring_escape_text.
  change (skip_ws (String ":" (String " " text)))
    with (String ":" (String " " text)).
  cbn iota beta.
  assert (Ascii.eqb ":" ":" = true) as -> by reflexivity.
  change (skip_ws (String " " text)) with (skip_ws text).
  now rewrite (skip_ws_opens _ Hop).
Qed.

Lemma members_open (lvl : nat) (kx : string * json) (d : dict) (rest : string) :
  exists r,
    items_text
      (fun kv => encode_basestring_ascii (fst kv) +:+ ": " +:+ encode (S lvl) (snd kv))
      ("," +:+ newline_indent (S lvl)) (newline_indent lvl +:+ "}") (kx :: d) +:+ rest
    = String quote_c r.
Proof. destruct kx as [k x]. cbn [items_text fst]. eexists. reflexivity. Qed.

Lemma scan_members_encode (lvl : nat) (d : dict) :
  Forall (fun kv => reads_back (snd kv)) d ->
  forallb (fun kv => json_ok (snd kv)) d = true -> d <> [] ->
  forall (n : nat) (rest : string),
    (list_sum (map (fun kv => S (need (snd kv))) d) <= n)%nat ->
    scan_members n
      (items_text
         (fun kv => encode_basestring_ascii (fst kv) +:+ ": " +:+ encode (S lvl) (snd kv))
         ("," +:+ newline_indent (S lvl)) (newline_indent lvl +:+ "}") d +:+ rest)
    = Some (d, rest).
Proof.
  induction 1 as [|[k y] d Hy Hd IH]; intros Hok Hne n rest Hn; [congruence |].
  simpl in Hok. apply andb_prop in Hok as [Hoky Hokd].
  simpl in Hn, Hy. destruct n as [|n]; [lia |].
  cbn [items_text fst snd]. rewrite !append_assoc.
  rewrite scan_members_key by now apply encode_opens.
  destruct d as [|kx d].
  - rewrite (Hy Hoky); [| lia | reflexivity].
    rewrite append_assoc, skip_ws_newline_indent. reflexivity.
  - rewrite (Hy Hoky); [| lia | reflexivity].
    rewrite !append_assoc.
    change (skip_ws ("," +:+ ?r)) with (String ","%char r).
    cbn iota beta.
    assert (Ascii.eqb "," "," = true) as -> by reflexivity.
    rewrite skip_ws_newline_indent.
    destruct (members_open lvl kx d rest) as [r Hr].
    rewrite skip_ws_opens.
    2:{ rewrite Hr. eexists _, _. split; [reflexivity |]. repeat split; reflexivity. }
    rewrite (IH Hokd); [reflexivity | congruence |].
    simpl in *. lia.
Qed.

Lemma dict_set_fresh (k : string) (v : json) (d : dict) :
  k ∉ d.*1 -> dict_set k v d = (d ++ [(k, v)])%list.
Proof.
  induction d as [|[k' v'] d IH]; intros Hk; [reflexivity |].
  simpl in *. apply not_elem_of_cons in Hk as [Hne Hk].
  destruct (String.eqb_spec k k') as [->|_]; [congruence |].
  now rewrite IH.
Qed.

Lemma dict_of_pairs_onto (d acc : dict) :
  NoDup (acc.*1 ++ d.*1)%list ->
  fold_left (fun a kv => dict_set (fst kv) (snd kv) a) d acc = (acc ++ d)%list.
Proof.
  revert acc. induction d as [|[k v] d IH]; intros acc Hnd; simpl.
  - now rewrite app_nil_r.
  - rewrite dict_set_fresh.
    + rewrite IH; [now rewrite <- app_assoc |].
      rewrite fmap_app, <- app_assoc. exact Hnd.
    + apply NoDup_app in Hnd as (_ & Hdisj & _).
      intros Hin. apply (Hdisj k Hin). simpl. left.
Qed.

Lemma dict_of_pairs_nodup (d : dict) : NoDup d.*1 -> dict_of_pairs d = d.
Proof. intros Hnd. unfold dict_of_pairs. now rewrite dict_of_pairs_onto. Qed.

Lemma scan_once_encode (v : json) : reads_back v.
Proof.
  induction v as [|b|lit|s|l IH|d IH] using json_nested_ind;
    intros Hok lvl n rest Hn Hd; (destruct n as [|n]; [simpl in Hn; lia |]).
  - destruct rest; reflexivity.
  - destruct b, rest; reflexivity.
  - simpl in Hok. pose proof Hok as Hok'. unfold json_number in Hok'.
    apply andb_prop in Hok' as [Hall Hg].
    destruct (number_grammar_cons _ Hg) as (c & r & ->).
    simpl in Hall. apply andb_prop in Hall as [Hc _].
    cbn [encode]. rewrite append_cons, (scan_once_numchar _ _ _ Hc), <- append_cons.
    now apply scan_number_literal.
  - apply scan_once_string.
  - destruct l as [|x l]; [reflexivity |].
    cbn [encode]. rewrite !append_assoc.
    change (scan_once (S n) ("[" +:+ ?r)) with
      (match skip_ws r with
       | EmptyString => None
       | String c1 r1 =>
           if Ascii.eqb c1 "]" then Some (JList [], r1)
           else match scan_items n (String c1 r1) with
                | Some (vs, r') => Some (JList vs, r')
                | None => None
                end
       end).
    rewrite skip_ws_newline_indent.
    assert (opens_value
              (items_text (encode (S lvl)) ("," +:+ newline_indent (S lvl))
                 (newline_indent lvl +:+ "]") (x :: l) +:+ rest)) as Hop.
    { cbn [items_text]. rewrite append_assoc. apply encode_opens.
      simpl in Hok. now apply andb_prop in Hok as [? _]. }
    rewrite (skip_ws_opens _ Hop).
    pose proof Hop as (c & r & Heq & _ & Hc & _). rewrite Heq, Hc, <- Heq.
    rewrite (scan_items_encode lvl (x :: l) IH Hok); [reflexivity | congruence |].
    simpl in *. lia.
  - destruct d as [|kx d]; [reflexivity |].
    simpl in Hok. apply andb_prop in Hok as [Hnd Hok].
    apply bool_decide_eq_true in Hnd.
    cbn [encode]. rewrite !append_assoc.
    change (scan_once (S n) ("{" +:+ ?r)) with
      (match skip_ws r with
       | EmptyString => None
       | String c1 r1 =>
           if Ascii.eqb c1 "}" then Some (JDict [], r1)
           else match scan_members n (String c1 r1) with
                | Some (kvs, r') => Some (JDict (dict_of_pairs kvs), r')
                | None => None
                end
       end).
    rewrite skip_ws_newline_indent.
    destruct (members_open lvl kx d rest) as [r Hr].
    rewrite skip_ws_opens.
    2:{ rewrite Hr. eexists _, _. split; [reflexivity |]. repeat split; reflexivity. }
    rewrite Hr. assert (Ascii.eqb quote_c "}" = false) as -> by reflexivity.
    rewrite <- Hr.
    rewrite (scan_members_encode lvl (kx :: d) IH Hok) by (try congruence; simpl in *; lia).
    now rewrite dict_of_pairs_nodup.
Qed.

(** The length of the text bounds the depth the decoder needs. *)
Lemma items_text_length {A} (enc : A -> string) (sep close : string)
    (cost : A -> nat) (l : list A) :
  Forall (fun x => (cost x <= String.length (enc x))%nat) l ->
  (1 <= String.length sep)%nat -> (1 <= String.length close)%nat ->
  (list_sum (map (fun x => S (cost x)) l)
   <= String.length (items_text enc sep close l))%nat.
Proof.
  intros Hl Hsep Hclose. induction Hl as [|y l Hy Hl IH]; [simpl; lia |].
  cbn [items_text map list_sum]. rewrite length_append.
  destruct l as [|z l].
  - simpl. lia.
  - rewrite length_append. simpl in *. lia.
Qed.

Lemma need_le_length (v : json) :
  json_ok v = true -> forall lvl, (need v <= String.length (encode lvl v))%nat.
Proof.
  induction v as [|b|lit|s|l IH|d IH] using json_nested_ind; intros Hok lvl.
  - simpl. lia.
  - destruct b; simpl; lia.
  - simpl in Hok. unfold json_number in Hok. apply andb_prop in Hok as [_ Hg].
    destruct (number_grammar_cons _ Hg) as (c & r & ->). simpl. lia.
  - simpl. lia.
  - destruct l as [|x l]; [simpl; lia |].
    cbn [encode need]. rewrite !length_append.
    pose proof (items_text_length (encode (S lvl)) ("," +:+ newline_indent (S lvl))
                  (newline_indent lvl +:+ "]") need (x :: l)) as Hlen.
    change (forallb json_ok (x :: l) = true) in Hok.
    rewrite forallb_forall in Hok.
    simpl String.length at 1.
    enough (list_sum (map (fun x => S (need x)) (x :: l))
            <= String.length
                 (items_text (encode (S lvl)) ("," +:+ newline_indent (S lvl))
                    (newline_indent lvl +:+ "]") (x :: l)))%nat by lia.
    apply Hlen.
    + rewrite Forall_forall in IH |- *. intros y Hy.
      apply IH; [exact Hy |]. apply Hok. now apply list_elem_of_In.
    + rewrite length_append. simpl. lia.
    + rewrite length_append. simpl. lia.
  - destruct d as [|kx d]; [simpl; lia |].
    cbn [encode need]. rewrite !length_append.
    apply andb_prop in Hok as [_ Hok].
    change (forallb (fun kv => json_ok (snd kv)) (kx :: d) = true) in Hok.
    rewrite forallb_forall in Hok.
    simpl String.length at 1.
    enough (list_sum (map (fun kv => S (need (snd kv))) (kx :: d))
            <= String.length
                 (items_text
                    (fun kv => encode_basestring_ascii (fst kv) +:+ ": "
                               +:+ encode (S lvl) (snd kv))
                    ("," +:+ newline_indent (S lvl))
                    (newline_indent lvl +:+ "}") (kx :: d)))%nat by lia.
    apply (items_text_length _ _ _ (fun kv => need (snd kv))).
    + rewrite Forall_forall in IH |- *. intros y Hy.
      rewrite !length_append.
      specialize (IH y Hy (Hok y (proj1 (list_elem_of_In _ _) Hy)) (S lvl)). lia.
    + rewrite length_append. simpl. lia.
    + rewrite length_append. simpl. lia.
Qed.

(** [json.loads(json.dumps(v, indent=4)) == v]. *)
Lemma json_loads_dumps (v : json) :
  json_ok v = true -> json_loads (json_dumps v) = Some v.
Proof.
  intros Hok. unfold json_loads, json_dumps.
  pose proof (encode_opens 0 v "" Hok) as Hop. rewrite append_nil_r in Hop.
  rewrite (skip_ws_opens _ Hop).
  rewrite <- (append_nil_r (encode 0 v)) at 2.
  rewrite (scan_once_encode v Hok); [reflexivity | | exact I].
  pose proof (need_le_length v Hok 0). lia.
Qed.

(** ** The bound of the decoder *)

Lemma skip_ws_length (s : string) : (String.length (skip_ws s) <= String.length s)%nat.
Proof.
  induction s as [|c s IH]; [reflexivity |].
  simpl. destruct (is_ws c); simpl; lia.
Qed.

Lemma scanstring_length_bounded (n : nat) (s t r : string) :
  (String.length s <= n)%nat ->
  scanstring s = Some (t, r) -> (String.length r < String.length s)%nat.
Proof.
  revert s t r. induction n as [|n IH]; intros s t r Hn.
  - destruct s; [discriminate | simpl in Hn; lia].
  - destruct s as [|c s]; [discriminate |].
    cbn [scanstring].
    repeat match goal with
           | |- context [match scanstring ?y with _ => _ end] =>
               let H := fresh "Hrec" in
               destruct (scanstring y) as [[? ?]|] eqn:H;
               [apply IH in H; [| simpl in *; lia] |]
           | |- context [if ?b then _ else _] => destruct b eqn:?
           | |- context [match ?x with _ => _ end] => destruct x eqn:?
           end;
      try discriminate; intros [= <- <-]; simpl in *; lia.
Qed.

Lemma scanstring_length (s t r : string) :
  scanstring s = Some (t, r) -> (String.length r < String.length s)%nat.
Proof. apply (scanstring_length_bounded (String.length s)). lia. Qed.

Lemma span_numchars_length (s lit rest : string) :
  span_numchars s = (lit, rest) ->
  String.length s = (String.length lit + String.length rest)%nat.
Proof.
  revert lit rest. induction s as [|c s IH]; intros lit rest.
  - intros [= <- <-]. reflexivity.
  - simpl. destruct (is_numchar c).
    + destruct (span_numchars s) as [a b]. intros [= <- <-].
      simpl. now rewrite (IH a b eq_refl).
    + intros [= <- <-]. reflexivity.
Qed.

Lemma drop_chars_length (n : nat) (s : string) :
  String.length (drop_chars n s) = (String.length s - n)%nat.
Proof.
  revert s. induction n as [|n IH]; intros [|c s]; simpl; auto with arith.
Qed.

Lemma prefix_length (p s : string) :
  String.prefix p s = true -> (String.length p <= String.length s)%nat.
Proof.
  revert s. induction p as [|c p IH]; intros [|c' s]; simpl; try lia; try discriminate.
  destruct (ascii_dec c c'); [| discriminate]. intros Hp. apply IH in Hp. lia.
Qed.

Lemma keyword_length (kw s r : string) :
  keyword kw s = Some r -> kw <> "" -> (String.length r < String.length s)%nat.
Proof.
  unfold keyword. destruct (String.prefix kw s) eqn:Hp; [| discriminate].
  intros [= <-] Hne. rewrite drop_chars_length. apply prefix_length in Hp.
  destruct kw; [congruence |]. simpl in *. lia.
Qed.

Lemma scan_number_length (s : string) (v : json) (r : string) :
  scan_number s = Some (v, r) -> (String.length r < String.length s)%nat.
Proof.
  unfold scan_number. destruct (span_numchars s) as [lit rest] eqn:Hspan.
  destruct (number_grammar lit) eqn:Hg.
  - intros [= <- <-]. apply span_numchars_length in Hspan.
    destruct lit; [discriminate |]. simpl in Hspan. lia.
  - destruct (keyword "NaN" s) eqn:H1.
    { intros [= <- <-]. now apply (keyword_length "NaN"). }
    destruct (keyword "Infinity" s) eqn:H2.
    { intros [= <- <-]. now apply (keyword_length "Infinity"). }
    destruct (keyword "-Infinity" s) eqn:H3; [| discriminate].
    intros [= <- <-]. now apply (keyword_length "-Infinity").
Qed.

Lemma scan_fuel (n : nat) :
  fuel_ok scan_once n /\ fuel_ok scan_items n /\ fuel_ok scan_members n.
Proof.
  induction n as [|n (IHo & IHi & IHm)]; [repeat split; discriminate |].
  unfold fuel_ok, consumed in *.
  split; [| split].
  - intros s v r. destruct s as [|c s]; [discriminate |].
    cbn [scan_once].
    destruct (Ascii.eqb c quote_c) eqn:Hq.
    { destruct (scanstring s) as [[t r']|] eqn:Hs; [| discriminate].
      intros [= <- <-]. pose proof (scanstring_length _ _ _ Hs) as Hl.
      split; [simpl; lia |]. intros [|m] Hm; [simpl in Hm; lia |].
      cbn [scan_once]. now rewrite Hq, Hs. }
    destruct (Ascii.eqb c "{") eqn:Hb.
    { pose proof (skip_ws_length s) as Hws.
      destruct (skip_ws s) as [|c1 r1] eqn:Hsk; [discriminate |].
      destruct (Ascii.eqb c1 "}") eqn:Hc1.
      - intros [= <- <-]. simpl in *. split; [lia |].
        intros [|m] Hm; [lia |]. cbn [scan_once]. now rewrite Hq, Hb, Hsk, Hc1.
      - destruct (scan_members n (String c1 r1)) as [[kvs r']|] eqn:Hm1; [| discriminate].
        intros [= <- <-]. destruct (IHm _ _ _ Hm1) as [Hlen Hfuel].
        simpl in *. split; [lia |].
        intros [|m] Hm; [lia |]. cbn [scan_once].
        rewrite Hq, Hb, Hsk, Hc1, Hfuel; [reflexivity | lia]. }
    destruct (Ascii.eqb c "[") eqn:Hk.
    { pose proof (skip_ws_length s) as Hws.
      destruct (skip_ws s) as [|c1 r1] eqn:Hsk; [discriminate |].
      destruct (Ascii.eqb c1 "]") eqn:Hc1.
      - intros [= <- <-]. simpl in *. split; [lia |].
        intros [|m] Hm; [lia |]. cbn [scan_once]. now rewrite Hq, Hb, Hk, Hsk, Hc1.
      - destruct (scan_items n (String c1 r1)) as [[vs r']|] eqn:Hm1; [| discriminate].
        intros [= <- <-]. destruct (IHi _ _ _ Hm1) as [Hlen Hfuel].
        simpl in *. split; [lia |].
        intros [|m] Hm; [lia |]. cbn [scan_once].
        rewrite Hq, Hb, Hk, Hsk, Hc1, Hfuel; [reflexivity | lia]. }
    intros Hrest.
    assert (String.length r < String.length (String c s))%nat as Hlen.
    { destruct (keyword "null" (String c s)) eqn:H1.
      { injection Hrest as <- <-. now apply (keyword_length "null"). }
      destruct (keyword "true" (String c s)) eqn:H2.
      { injection Hrest as <- <-. now apply (keyword_length "true"). }
      destruct (keyword "false" (String c s)) eqn:H3.
      { injection Hrest as <- <-. now apply (keyword_length "false"). }
      now apply scan_number_length in Hrest. }
    split; [exact Hlen |].
    intros [|m] Hm; [lia |]. cbn [scan_once]. now rewrite Hq, Hb, Hk.
  - intros s vs r. cbn [scan_items].
    destruct (scan_once n s) as [[v r1]|] eqn:Hv; [| discriminate].
    destruct (IHo _ _ _ Hv) as [Hlen1 Hfuel1].
    pose proof (skip_ws_length r1) as Hws1.
    destruct (skip_ws r1) as [|c1 r2] eqn:Hsk1; [discriminate |].
    destruct (Ascii.eqb c1 ",") eqn:Hc.
    + destruct (scan_items n (skip_ws r2)) as [[vs' r']|] eqn:Hrec; [| discriminate].
      intros [= <- <-]. destruct (IHi _ _ _ Hrec) as [Hlen2 Hfuel2].
      pose proof (skip_ws_length r2) as Hws2. simpl in *.
      split; [lia |]. intros [|m] Hm; [lia |]. cbn [scan_items].
      rewrite Hfuel1 by lia. rewrite Hsk1, Hc, Hfuel2; [reflexivity | lia].
    + destruct (Ascii.eqb c1 "]") eqn:Hc'; [| discriminate].
      intros [= <- <-]. simpl in *. split; [lia |].
      intros [|m] Hm; [lia |]. cbn [scan_items].
      rewrite Hfuel1 by lia. now rewrite Hsk1, Hc, Hc'.
  - intros s kvs r. cbn [scan_members].
    destruct s as [|q s]; [discriminate |].
    destruct (Ascii.eqb q quote_c) eqn:Hq; [| discriminate].
    destruct (scanstring s) as [[k r1]|] eqn:Hk; [| discriminate].
    pose proof (scanstring_length _ _ _ Hk) as Hlenk.
    pose proof (skip_ws_length r1) as Hws1.
    destruct (skip_ws r1) as [|c2 r2] eqn:Hsk1; [discriminate |].
    destruct (Ascii.eqb c2 ":") eqn:Hc2; [| discriminate].
    destruct (scan_once n (skip_ws r2)) as [[v r3]|] eqn:Hv; [| discriminate].
    destruct (IHo _ _ _ Hv) as [Hlen3 Hfuel3].
    pose proof (skip_ws_length r2) as Hws2.
    pose proof (skip_ws_length r3) as Hws3.
    destruct (skip_ws r3) as [|c4 r4] eqn:Hsk3; [discriminate |].
    destruct (Ascii.eqb c4 ",") eqn:Hc4.
    + destruct (scan_members n (skip_ws r4)) as [[kvs' r']|] eqn:Hrec; [| discriminate].
      intros [= <- <-]. destruct (IHm _ _ _ Hrec) as [Hlen5 Hfuel5].
      pose proof (skip_ws_length r4) as Hws4. simpl in *.
      split; [lia |]. intros [|m] Hm; [lia |]. cbn [scan_members].
      rewrite Hq, Hk, Hsk1, Hc2, Hfuel3 by lia.
      rewrite Hsk3, Hc4, Hfuel5; [reflexivity | lia].
    + destruct (Ascii.eqb c4 "}") eqn:Hc4'; [| discriminate].
      intros [= <- <-]. simpl in *. split; [lia |].
      intros [|m] Hm; [lia |]. cbn [scan_members].
      rewrite Hq, Hk, Hsk1, Hc2, Hfuel3 by lia. now rewrite Hsk3, Hc4, Hc4'.
Qed.

(** The bound [json_loads] puts on the decoder never cuts a parse short:
    whatever the decoder can read with any bound, [json_loads] reads. *)
Lemma json_loads_complete (n : nat) (text : string) (v : json) (r : string) :
  scan_once n (skip_ws text) = Some (v, r) -> skip_ws r = "" ->
  json_loads text = Some v.
Proof.
  intros Hscan Hend. destruct (scan_fuel n) as (Ho & _ & _).
  destruct (Ho _ _ _ Hscan) as [Hlen Hfuel]. unfold json_loads.
  rewrite Hfuel, Hend; [reflexivity |].
  unfold consumed. pose proof (skip_ws_length text). lia.
Qed.


(** ** Files *)

Lemma save_review_log_insert (file : string) (store : json) (files : gmap string string) :
  save_review_log file store files = <[file := json_dumps store]> files.
Proof.
  unfold save_review_log, save_ops, run_ops. simpl.
  rewrite lookup_insert_eq. simpl. now rewrite insert_insert_eq.
Qed.

Lemma load_after_save (file : string) (store : json) (files : gmap string string) :
  json_ok store = true ->
  load_review_log (save_review_log file store files) file = Ok store.
Proof.
  intros Hok. unfold load_review_log.
  rewrite save_review_log_insert, lookup_insert_eq.
  now rewrite (json_loads_dumps _ Hok).
Qed.

(** ** Dicts *)

Lemma dict_get_set_eq (k : string) (v : json) (d : dict) :
  dict_get k (dict_set k v d) = Some v.
Proof.
  induction d as [|[k' v'] d IH]; simpl.
  - now rewrite String.eqb_refl.
  - destruct (String.eqb_spec k k') as [->|Hne]; simpl.
    + now rewrite String.eqb_refl.
    + destruct (String.eqb_spec k k'); [congruence | exact IH].
Qed.

Lemma dict_get_set_ne (k k' : string) (v : json) (d : dict) :
  k <> k' -> dict_get k' (dict_set k v d) = dict_get k' d.
Proof.
  intros Hne. induction d as [|[k0 v0] d IH]; simpl.
  - destruct (String.eqb_spec k' k); [congruence | reflexivity].
  - destruct (String.eqb_spec k k0) as [->|Hk]; simpl.
    + destruct (String.eqb_spec k' k0); [congruence | reflexivity].
    + destruct (String.eqb_spec k' k0); [reflexivity | exact IH].
Qed.

Lemma dict_get_None (k : string) (d : dict) : dict_get k d = None <-> k ∉ d.*1.
Proof.
  induction d as [|[k' v'] d IH]; simpl.
  - split; [intros _; apply not_elem_of_nil | reflexivity].
  - rewrite not_elem_of_cons.
    destruct (String.eqb_spec k k') as [->|Hne]; split; try tauto; discriminate.
Qed.

(** The keys after an assignment: unchanged when the key was there, one
    more at the end when it was not. *)
Lemma dict_set_keys (k : string) (v : json) (d : dict) :
  (dict_set k v d).*1 =
  if bool_decide (is_Some (dict_get k d)) then d.*1 else (d.*1 ++ [k])%list.
Proof.
  induction d as [|[k' v'] d IH]; [reflexivity |].
  cbn [dict_set dict_get]. destruct (String.eqb_spec k k') as [->|Hne].
  - reflexivity.
  - rewrite fmap_cons, IH.
    now destruct (bool_decide (is_Some (dict_get k d))).
Qed.

(** ** Selecting the notes to review *)

Section Selection.
Context (F : Fsrs) (H : Host).

Lemma readable_elim (d : dict) (notes : list string) (note : string) (card_data : json) :
  readable F d notes = true -> note ∈ notes -> dict_get note d = Some card_data ->
  exists c card,
    py_getitem card_data "card" = Ok c /\ Card_from_dict F c = Ok card.
Proof.
  unfold readable. rewrite forallb_forall. intros Hall Hin Hget.
  specialize (Hall note (proj1 (list_elem_of_In _ _) Hin)).
  unfold stored_card in Hall. rewrite Hget in Hall.
  unfold mbind, result_bind in Hall.
  destruct (py_getitem card_data "card") as [c|]; [| discriminate].
  destruct (Card_from_dict F c) as [card|] eqn:Hcard; [| discriminate].
  exists c, card. split; [reflexivity | exact Hcard].
Qed.

Lemma notes_due_app (store : json) (a b : list string) (t : nat) :
  notes_due F H store (a ++ b)%list t =
  match notes_due F H store a t with
  | Ok (l1, t1) =>
      match notes_due F H store b t1 with
      | Ok (l2, t2) => Ok ((l1 ++ l2)%list, t2)
      | Raise e => Raise e
      end
  | Raise e => Raise e
  end.
Proof.
  revert t. induction a as [|n a IH]; intros t.
  - simpl. now destruct (notes_due F H store b t) as [[? ?]|?].
  - cbn [notes_due app]. unfold mbind, result_bind.
    destruct (py_contains n store) as [[]|]; [| | reflexivity].
    + destruct (py_getitem store n) as [cd|]; [| reflexivity].
      destruct (py_getitem cd "card") as [c|]; [| reflexivity].
      destruct (Card_from_dict F c) as [card|]; [| reflexivity].
      rewrite IH.
      destruct (notes_due F H store a (S t)) as [[l1 t1]|]; [| reflexivity].
      destruct (notes_due F H store b t1) as [[l2 t2]|]; [| reflexivity].
      now destruct (Card_due F card <=? now H t).
    + rewrite IH.
      destruct (notes_due F H store a t) as [[l1 t1]|]; [| reflexivity].
      now destruct (notes_due F H store b t1) as [[l2 t2]|].
Qed.

Lemma notes_due_new_head (d : dict) (note : string) (rest : list string) (t : nat) :
  dict_get note d = None ->
  notes_due F H (JDict d) (note :: rest) t =
  match notes_due F H (JDict d) rest t with
  | Ok (l, t') => Ok (note :: l, t')
  | Raise e => Raise e
  end.
Proof.
  intros Hnone. cbn [notes_due py_contains]. rewrite Hnone.
  rewrite bool_decide_eq_false_2 by (intros [? ?]; discriminate).
  reflexivity.
Qed.

Lemma notes_due_known_head (d : dict) (note : string) (rest : list string)
    (t : nat) (card_data c : json) (card : Card F) :
  dict_get note d = Some card_data ->
  py_getitem card_data "card" = Ok c -> Card_from_dict F c = Ok card ->
  notes_due F H (JDict d) (note :: rest) t =
  match notes_due F H (JDict d) rest (S t) with
  | Ok (l, t') => Ok (if Card_due F card <=? now H t then note :: l else l, t')
  | Raise e => Raise e
  end.
Proof.
  intros Hget Hc Hcard. cbn [notes_due py_contains py_getitem]. rewrite Hget.
  rewrite bool_decide_eq_true_2 by eauto.
  cbn [mbind result_bind or_raise]. unfold mbind, result_bind.
  rewrite Hc, Hcard. reflexivity.
Qed.

(** On a readable F store the loop ends without an exception. *)
Lemma notes_due_total (d : dict) (notes : list string) (t : nat) :
  readable F d notes = true ->
  exists due t', notes_due F H (JDict d) notes t = Ok (due, t').
Proof.
  revert t. induction notes as [|note rest IH]; intros t Hr.
  - simpl. eauto.
  - assert (readable F d rest = true) as Hrest.
    { unfold readable in *. simpl in Hr. now apply andb_prop in Hr as [_ ?]. }
    destruct (dict_get note d) as [cd|] eqn:Hget.
    + destruct (readable_elim _ _ _ _ Hr (list_elem_of_here _ _) Hget)
        as (c & card & Hc & Hcard).
      rewrite (notes_due_known_head _ _ _ _ _ _ _ Hget Hc Hcard).
      destruct (IH (S t) Hrest) as (l & t' & ->). eauto.
    + rewrite (notes_due_new_head _ _ _ _ Hget).
      destruct (IH t Hrest) as (l & t' & ->). eauto.
Qed.

(** The due notes are notes of the catalog, in catalog order. *)
Lemma notes_due_sublist (store : json) (notes due : list string) (t t' : nat) :
  notes_due F H store notes t = Ok (due, t') -> sublist due notes.
Proof.
  revert t due t'. induction notes as [|note rest IH]; intros t due t'.
  - simpl. intros [= <- <-]. constructor.
  - cbn [notes_due]. unfold mbind, result_bind.
    destruct (py_contains note store) as [[]|]; [| | discriminate].
    + destruct (py_getitem store note) as [cd|]; [| discriminate].
      destruct (py_getitem cd "card") as [c|]; [| discriminate].
      destruct (Card_from_dict F c) as [card|]; [| discriminate].
      destruct (notes_due F H store rest (S t)) as [[l t1]|] eqn:Hrest; [| discriminate].
      intros [= <- <-]. specialize (IH _ _ _ Hrest).
      destruct (Card_due F card <=? now H t); now constructor.
    + destruct (notes_due F H store rest t) as [[l t1]|] eqn:Hrest; [| discriminate].
      intros [= <- <-]. constructor. eauto.
Qed.

(** A note that is left out has a record in the store. *)
Lemma notes_due_left_out (d : dict) (notes due : list string) (t t' : nat) (note : string) :
  notes_due F H (JDict d) notes t = Ok (due, t') ->
  note ∈ notes -> note ∉ due -> is_Some (dict_get note d).
Proof.
  revert t due t'. induction notes as [|n rest IH]; intros t due t' Hrun Hin Hout.
  - now apply elem_of_nil in Hin.
  - destruct (dict_get n d) as [cd|] eqn:Hget.
    + revert Hrun. cbn [notes_due py_contains py_getitem]. rewrite Hget.
      rewrite bool_decide_eq_true_2 by eauto.
      cbn [or_raise]. unfold mbind, result_bind.
      destruct (py_getitem cd "card") as [c|]; [| discriminate].
      destruct (Card_from_dict F c) as [card|]; [| discriminate].
      destruct (notes_due F H (JDict d) rest (S t)) as [[l t1]|] eqn:Hrest; [| discriminate].
      intros [= <- <-].
      apply elem_of_cons in Hin as [->|Hin]; [rewrite Hget; eauto |].
      apply (IH _ _ _ Hrest Hin).
      destruct (Card_due F card <=? now H t); [| exact Hout].
      intros Hl. apply Hout. now right.
    + rewrite (notes_due_new_head _ _ _ _ Hget) in Hrun.
      destruct (notes_due F H (JDict d) rest t) as [[l t1]|] eqn:Hrest; [| discriminate].
      injection Hrun as <- <-.
      apply elem_of_cons in Hin as [->|Hin]; [exfalso; apply Hout; left |].
      apply (IH _ _ _ Hrest Hin). intros Hl. apply Hout. now right.
Qed.

Lemma notes_due_new (d : dict) (notes due : list string) (t t' : nat) (note : string) :
  notes_due F H (JDict d) notes t = Ok (due, t') ->
  note ∈ notes -> dict_get note d = None -> note ∈ due.
Proof.
  intros Hrun Hin Hnone. destruct (decide (note ∈ due)) as [Hd|Hd]; [exact Hd |].
  destruct (notes_due_left_out _ _ _ _ _ _ Hrun Hin Hd) as [? Hsome]. congruence.
Qed.

End Selection.

(** ** Due selection: limit, new notes, threshold *)

Lemma slice_to_nonneg {A} (l : list A) (q : Z) :
  0 <= q -> slice_to l q = take (Z.to_nat q) l.
Proof. intros Hq. unfold slice_to. destruct (Z.leb_spec 0 q); [reflexivity | lia]. Qed.

(** C5, as stated, fails: with the catalog [/w/a.md; /w/b.md; /w/sub/c.md],
    an empty store and limit 1, the note [/w/b.md] has no record and is
    not returned. *)
Lemma C5_every_new_note_returned_fails :
  ~ (forall (F : Fsrs) (H : Host) (self : NoteReviewer) (d : dict) (q : Z)
            (t t' : nat) (l : list string) (note : string),
        review_log self = JDict d ->
        select_notes_for_review F H self q t = Ok (l, t') ->
        note ∈ discover (os_walk H (notes_path self)) ->
        dict_get note d = None ->
        note ∈ l).
Proof.
  intros Hall.
  specialize (Hall demo_fsrs demo_host (demo_reviewer (JDict [])) [] 1 0%nat 0%nat
                   ["/w/a.md"] "/w/b.md" eq_refl eq_refl).
  assert ("/w/b.md" ∈ ["/w/a.md"]) as Hin.
  { apply Hall; [| reflexivity]. vm_compute. right. left. }
  apply list_elem_of_singleton in Hin. discriminate Hin.
Qed.

(** C5, amended: every note of the catalog that has no record in the store
    is in the list of due notes the limit is applied to, and it is returned
    whenever fewer than [q] due notes precede it (so always when at most
    [q] notes are due). *)
Theorem C5_new_notes_are_due (F : Fsrs) (H : Host) (self : NoteReviewer)
    (d : dict) (q : Z) (t : nat) :
  review_log self = JDict d ->
  readable F d (discover (os_walk H (notes_path self))) = true ->
  exists due t',
    notes_due F H (JDict d) (discover (os_walk H (notes_path self))) t = Ok (due, t') /\
    select_notes_for_review F H self q t = Ok (slice_to due q, t') /\
    forall note,
      note ∈ discover (os_walk H (notes_path self)) -> dict_get note d = None ->
      note ∈ due /\
      (forall i : nat, due !! i = Some note -> Z.of_nat i < q ->
                       slice_to due q !! i = Some note) /\
      (Z.of_nat (length due) <= q -> note ∈ slice_to due q).
Proof.
  intros Hlog Hr.
  destruct (notes_due_total F H d _ t Hr) as (due & t' & Hdue).
  exists due, t'. split; [exact Hdue |]. split.
  { unfold select_notes_for_review. rewrite Hlog, Hdue. reflexivity. }
  intros note Hin Hnone.
  pose proof (notes_due_new F H _ _ _ _ _ _ Hdue Hin Hnone) as Hmem.
  split; [exact Hmem |]. split.
  - intros i Hi Hlt. rewrite slice_to_nonneg by lia.
    rewrite lookup_take_lt by lia. exact Hi.
  - intros Hlen. rewrite slice_to_nonneg by lia.
    rewrite take_ge by lia. exact Hmem.
Qed.

Lemma C5_new_notes_are_due_witness :
  exists due t',
    notes_due demo_fsrs demo_host (JDict (demo_store 0))
      (discover (os_walk demo_host "/w")) 0 = Ok (due, t') /\
    select_notes_for_review demo_fsrs demo_host
      (demo_reviewer (JDict (demo_store 0))) 2 0 = Ok (slice_to due 2, t') /\
    forall note,
      note ∈ discover (os_walk demo_host "/w") ->
      dict_get note (demo_store 0) = None ->
      note ∈ due /\
      (forall i : nat, due !! i = Some note -> Z.of_nat i < 2 ->
                       slice_to due 2 !! i = Some note) /\
      (Z.of_nat (length due) <= 2 -> note ∈ slice_to due 2).
Proof.
  apply (C5_new_notes_are_due demo_fsrs demo_host
           (demo_reviewer (JDict (demo_store 0))) (demo_store 0) 2 0);
    reflexivity.
Defined.

(** C6: a note that has a record is examined against the clock reading
    taken for it, with [<=]: it is due when [card.due] equals that reading
    and not due when [card.due] is one second (1000000 microseconds)
    later. *)
Theorem C6_due_threshold (F : Fsrs) (H : Host) (d : dict)
    (pre post : list string) (note : string) (card_data c : json) (card : Card F)
    (t t' : nat) (due : list string) :
  dict_get note d = Some card_data ->
  py_getitem card_data "card" = Ok c ->
  Card_from_dict F c = Ok card ->
  notes_due F H (JDict d) (pre ++ note :: post)%list t = Ok (due, t') ->
  exists (due_pre due_post : list string) (t_now : nat),
    notes_due F H (JDict d) pre t = Ok (due_pre, t_now) /\
    notes_due F H (JDict d) post (S t_now) = Ok (due_post, t') /\
    due = (due_pre ++ (if Card_due F card <=? now H t_now then [note] else [])
                   ++ due_post)%list /\
    (Card_due F card = now H t_now -> note ∈ due) /\
    (Card_due F card = now H t_now + 1000000 ->
     note ∉ pre -> note ∉ post -> note ∉ due).
Proof.
  intros Hget Hc Hcard Hrun. rewrite notes_due_app in Hrun.
  destruct (notes_due F H (JDict d) pre t) as [[due_pre t_now]|] eqn:Hpre;
    [| discriminate].
  rewrite (notes_due_known_head F H _ _ _ _ _ _ _ Hget Hc Hcard) in Hrun.
  destruct (notes_due F H (JDict d) post (S t_now)) as [[due_post t2]|] eqn:Hpost;
    [| discriminate].
  injection Hrun as <- <-.
  exists due_pre, due_post, t_now.
  split; [reflexivity |]. split; [exact Hpost |]. split; [| split].
  - now destruct (Card_due F card <=? now H t_now).
  - intros Heq. rewrite Heq, Z.leb_refl.
    apply elem_of_app. right. left.
  - intros Heq Hnpre Hnpost.
    destruct (Z.leb_spec (Card_due F card) (now H t_now)) as [Hle|_]; [lia |].
    intros Hin. apply elem_of_app in Hin as [Hin|Hin].
    + apply Hnpre. eapply elem_of_sublist; [exact Hin |].
      exact (notes_due_sublist F H _ _ _ _ _ Hpre).
    + apply Hnpost. eapply elem_of_sublist; [exact Hin |].
      exact (notes_due_sublist F H _ _ _ _ _ Hpost).
Qed.

Lemma C6_due_threshold_witness :
  exists (due_pre due_post : list string) (t_now : nat),
    notes_due demo_fsrs demo_host (JDict (demo_store 1700000000000000)) [] 0
      = Ok (due_pre, t_now) /\
    notes_due demo_fsrs demo_host (JDict (demo_store 1700000000000000))
      ["/w/b.md"] (S t_now) = Ok (due_post, 1%nat) /\
    ["/w/a.md"; "/w/b.md"] =
      (due_pre ++ (if 1700000000000000 <=? now demo_host t_now then ["/w/a.md"] else [])
               ++ due_post)%list /\
    (1700000000000000 = now demo_host t_now -> "/w/a.md" ∈ ["/w/a.md"; "/w/b.md"]) /\
    (1700000000000000 = now demo_host t_now + 1000000 ->
     "/w/a.md" ∉ [] -> "/w/a.md" ∉ ["/w/b.md"] -> "/w/a.md" ∉ ["/w/a.md"; "/w/b.md"]).
Proof.
  apply (C6_due_threshold demo_fsrs demo_host (demo_store 1700000000000000)
           [] ["/w/b.md"] "/w/a.md"
           (JDict [("last_reviewed", JStr "2024-01-01");
                   ("card", JDict [("due", JNum "1700000000000000"); ("reps", JNum "1")]);
                   ("review_log", JDict [("rating", JNum "3")])])
           (JDict [("due", JNum "1700000000000000"); ("reps", JNum "1")])
           (1700000000000000, 1) 0%nat 1%nat ["/w/a.md"; "/w/b.md"]);
    reflexivity.
Defined.



(** ** Updating the store *)

Section Update.
Context (F : Fsrs) (H : Host).

(** What a successful update did: it read the stored card, or made a new
    one, had the engine review it with [rating], and assigned the new
    record to the key [note]. *)
Lemma update_review_log_inv (d : dict) (note : string) (rating : Z) (t : nat)
    (store' : json) (t' : nat) :
  update_review_log F H (JDict d) note rating t = Ok (store', t') ->
  exists (card : Card F) (t1 : nat),
    match dict_get note d with
    | None => card = Card_new F (now H (S t)) /\ t1 = S (S t)
    | Some card_data =>
        (exists c, py_getitem card_data "card" = Ok c
                   /\ Card_from_dict F c = Ok card) /\ t1 = S t
    end /\
    store' = JDict (dict_set note
                      (make_record F (today_str H (now H t))
                         (review_card F (now H t1) card rating).1
                         (review_card F (now H t1) card rating).2) d) /\
    t' = S t1.
Proof.
  unfold update_review_log. cbn [py_contains py_getitem py_setitem].
  destruct (dict_get note d) as [cd|] eqn:Hget.
  - rewrite bool_decide_eq_true_2 by eauto.
    cbn [or_raise]. unfold mbind, result_bind.
    destruct (py_getitem cd "card") as [c|] eqn:Hc; [| discriminate].
    destruct (Card_from_dict F c) as [card|] eqn:Hcard; [| discriminate].
    destruct (py_getitem cd "review_log") as [r|]; [| discriminate].
    destruct (ReviewLog_from_dict F r) as [rl|]; [| discriminate].
    destruct (review_card F (now H (S t)) card rating) as [card' rl'] eqn:Hrev.
    intros [= <- <-]. exists card, (S t). rewrite Hrev. eauto 10.
  - rewrite bool_decide_eq_false_2 by (intros [? ?]; discriminate).
    unfold mbind, result_bind.
    destruct (review_card F (now H (S (S t))) (Card_new F (now H (S t))) rating)
      as [card' rl'] eqn:Hrev.
    intros [= <- <-]. exists (Card_new F (now H (S t))), (S (S t)).
    rewrite Hrev. eauto.
Qed.



End Update.

(** C10: an update that goes through assigns one record to the key [note]
    and nothing else: the record of every other identity is the one it
    was, an existing key keeps its place, a new key is added at the end. *)
Theorem C10_update_changes_one_record (F : Fsrs) (H : Host) (d : dict)
    (note : string) (rating : Z) (t : nat) (store' : json) (t' : nat) :
  update_review_log F H (JDict d) note rating t = Ok (store', t') ->
  exists (d' : dict) (record : json),
    store' = JDict d' /\
    dict_get note d' = Some record /\
    (forall other, other <> note -> dict_get other d' = dict_get other d) /\
    dict_keys d' = (if bool_decide (is_Some (dict_get note d))
                    then dict_keys d else dict_keys d ++ [note])%list.
Proof.
  intros Hup.
  destruct (update_review_log_inv F H _ _ _ _ _ _ Hup) as (card & t1 & _ & -> & _).
  eexists _, _. split; [reflexivity |]. split; [apply dict_get_set_eq |].
  split; [| apply dict_set_keys].
  intros other Hne. apply dict_get_set_ne. congruence.
Qed.

Lemma C10_update_changes_one_record_witness :
  exists (d' : dict) (record : json),
    JDict [("/w/a.md",
            JDict [("last_reviewed", JStr "2024-01-02");
                   ("card", JDict [("due", JNum "1700259200000001"); ("reps", JNum "2")]);
                   ("review_log", JDict [("rating", JNum "3")])])] = JDict d' /\
    dict_get "/w/a.md" d' = Some record /\
    (forall other, other <> "/w/a.md" ->
                   dict_get other d' = dict_get other (demo_store 5)) /\
    dict_keys d' = (if bool_decide (is_Some (dict_get "/w/a.md" (demo_store 5)))
                    then dict_keys (demo_store 5)
                    else dict_keys (demo_store 5) ++ ["/w/a.md"])%list.
Proof.
  apply (C10_update_changes_one_record demo_fsrs demo_host (demo_store 5)
           "/w/a.md" 3 0 _ 2%nat).
  reflexivity.
Defined.

(** ** Loading and saving the review log *)



(** C9: for every well-formed store (distinct keys, number literals of the
    JSON grammar), saving it and loading the file again gives the store
    back: the same keys in the same order, each with the same record, text
    and numbers character for character. *)
Theorem C9_save_then_load (file : string) (store : json) (files : gmap string string) :
  json_ok store = true ->
  load_review_log (save_review_log file store files) file = Ok store.
Proof. exact (load_after_save file store files). Qed.

Lemma C9_save_then_load_witness :
  load_review_log
    (save_review_log "/w/review_log.json" (JDict (demo_store 17)) ∅)
    "/w/review_log.json" = Ok (JDict (demo_store 17)).
Proof.
  apply (C9_save_then_load "/w/review_log.json" (JDict (demo_store 17)) ∅).
  vm_compute. reflexivity.
Defined.



(** ** The rating prompt *)

Lemma accepted_range (x : string) (d : Z) : accepted x = Some d -> 1 <= d <= 4.
Proof.
  unfold accepted. destruct (py_int x) as [n|]; [| discriminate].
  destruct (Z.leb_spec 1 n), (Z.leb_spec n 4); simpl; intros [= <-]; lia.
Qed.

Lemma accepted_not_quit (x : string) (d : Z) :
  accepted x = Some d -> String.eqb x "q" = false.
Proof.
  intros Hx. destruct (String.eqb_spec x "q") as [->|]; [discriminate Hx | reflexivity].
Qed.

Lemma rejected_not_quit (x : string) : rejected x = true -> String.eqb x "q" = false.
Proof.
  intros Hx. destruct (String.eqb_spec x "q") as [->|]; [discriminate Hx | reflexivity].
Qed.

Lemma ask_difficulty_accepted (note ack x : string) (d : Z) (rest : list string) :
  accepted x = Some d ->
  ask_difficulty note (ack :: x :: rest) = ([Present note], Ok (Difficulty d), rest).
Proof.
  intros Hx. cbn [ask_difficulty]. rewrite (accepted_not_quit _ _ Hx).
  unfold accepted in Hx. destruct (py_int x) as [n|]; [| discriminate].
  unfold difficulty_schema_validate.
  destruct ((1 <=? n) && (n <=? 4))%bool; [| discriminate].
  now injection Hx as ->.
Qed.

Lemma ask_difficulty_quit (note ack : string) (rest : list string) :
  ask_difficulty note (ack :: "q" :: rest) = ([Present note], Ok Quit, rest).
Proof. reflexivity. Qed.

Lemma ask_difficulty_not_int (note ack x : string) (rest : list string) :
  py_int x = None -> x <> "q" ->
  ask_difficulty note (ack :: x :: rest) = ([Present note], Raise ValueError, rest).
Proof.
  intros Hx Hq. cbn [ask_difficulty].
  destruct (String.eqb_spec x "q"); [congruence |]. now rewrite Hx.
Qed.

(** A rejected answer sends the prompt round again: nothing but the two
    lines is consumed, nothing but the prompt and the message is printed. *)
Lemma ask_difficulty_rejected (note ack x : string) (rest : list string) :
  rejected x = true ->
  ask_difficulty note (ack :: x :: rest) =
  let '(evs, r, rest') := ask_difficulty note rest in
  (Present note :: Retry :: evs, r, rest').
Proof.
  intros Hx. cbn [ask_difficulty]. rewrite (rejected_not_quit _ Hx).
  unfold rejected in Hx. destruct (py_int x) as [n|]; [| discriminate].
  unfold difficulty_schema_validate.
  destruct ((1 <=? n) && (n <=? 4))%bool; [discriminate | reflexivity].
Qed.

Lemma ask_difficulty_retries (note : string) (rounds : list (string * string))
    (inp : list string) :
  forallb (fun p => rejected (snd p)) rounds = true ->
  ask_difficulty note (lines rounds ++ inp)%list =
  let '(evs, r, rest') := ask_difficulty note inp in
  ((flat_map (fun _ => [Present note; Retry]) rounds ++ evs)%list, r, rest').
Proof.
  induction rounds as [|[a x] rounds IH]; intros Hall.
  - simpl. now destruct (ask_difficulty note inp) as [[? ?] ?].
  - simpl in Hall. apply andb_prop in Hall as [Hx Hall].
    change (lines ((a, x) :: rounds) ++ inp)%list
      with (a :: x :: (lines rounds ++ inp))%list.
    rewrite (ask_difficulty_rejected _ _ _ _ Hx), (IH Hall).
    now destruct (ask_difficulty note inp) as [[? ?] ?].
Qed.

Lemma ask_difficulty_turn (tn : turn) (d : Z) (more : list string) :
  retries_rejected tn = true -> accepted (turn_answer tn) = Some d ->
  ask_difficulty (turn_note tn) (turn_lines tn ++ more)%list
  = (turn_asks tn, Ok (Difficulty d), more).
Proof.
  intros Hrej Hacc. unfold turn_lines, turn_asks. rewrite <- app_assoc.
  rewrite (ask_difficulty_retries _ _ _ Hrej).
  change ([turn_ack tn; turn_answer tn] ++ more)%list
    with (turn_ack tn :: turn_answer tn :: more).
  now rewrite (ask_difficulty_accepted _ _ _ _ _ Hacc).
Qed.


(** ** The review session *)

Section Session.
Context (F : Fsrs) (H : Host) (file : string).

(** One rating turn of the loop: the rating handed to [update_review_log]
    is [5 - d]; the save follows the update at once. *)
Lemma review_loop_turn (tn : turn) (d : Z) (rest : list string) (st : session)
    (more : list string) :
  retries_rejected tn = true -> accepted (turn_answer tn) = Some d ->
  stdin st = (turn_lines tn ++ more)%list ->
  review_loop F H file (turn_note tn :: rest) st =
  match update_review_log F H (log st) (turn_note tn) (5 - d) (ticks st) with
  | Raise e =>
      (Raise e, {| log := log st; fs := fs st; stdin := more; ticks := ticks st;
                   trace := trace st ++ turn_asks tn |})
  | Ok (store', t') =>
      review_loop F H file rest
        {| log := store';
           fs := save_review_log file store' (fs st);
           stdin := more;
           ticks := t';
           trace := (trace st ++ turn_asks tn)
                    ++ [Reviewed (turn_note tn) (5 - d); Saved (json_dumps store')] |}
  end.
Proof.
  intros Hrej Hacc Hin. cbn [review_loop].
  rewrite Hin, (ask_difficulty_turn _ _ _ Hrej Hacc). cbn [log ticks fs trace].
  now destruct (update_review_log F H (log st) (turn_note tn) (5 - d) (ticks st))
    as [[store' t']|e].
Qed.


Lemma saves_app (a b : list event) : saves (a ++ b)%list = (saves a ++ saves b)%list.
Proof. unfold saves. apply omap_app. Qed.




End Session.

(** ** The session: ratings, saves, quitting *)

(** C1 fails on the code for an answer that is not an integer: [int("abc")]
    raises [ValueError], which the loop does not catch.  The session ends
    with that exception; the store and the files are as they were. *)
Theorem C1_non_integer_answer_ends_session (F : Fsrs) (H : Host) (file note ack : string)
    (rest more : list string) (store : json) (files : gmap string string)
    (t : nat) (tr : list event) :
  review_loop F H file (note :: rest)
    {| log := store; fs := files; stdin := ack :: "abc" :: more; ticks := t; trace := tr |}
  = (Raise ValueError,
     {| log := store; fs := files; stdin := more; ticks := t;
        trace := tr ++ [Present note] |}).
Proof. reflexivity. Qed.



(** C3: when the answer of a turn is taken as difficulty [d], which is
    then one of 1..4, the loop hands [5 - d] to [update_review_log], and
    [update_review_log] hands it on to the engine's [review_card]; the four
    answers 1, 2, 3, 4 give the ratings 4, 3, 2, 1. *)
Theorem C3_rating_is_five_minus_difficulty (F : Fsrs) (H : Host) (file : string)
    (tn : turn) (d : Z) (rest : list string) (st : session) (more : list string) :
  retries_rejected tn = true ->
  accepted (turn_answer tn) = Some d ->
  stdin st = (turn_lines tn ++ more)%list ->
  1 <= d <= 4 /\
  turn_rating tn = 5 - d /\
  review_loop F H file (turn_note tn :: rest) st =
    match update_review_log F H (log st) (turn_note tn) (5 - d) (ticks st) with
    | Raise e =>
        (Raise e, {| log := log st; fs := fs st; stdin := more; ticks := ticks st;
                     trace := trace st ++ turn_asks tn |})
    | Ok (store', t') =>
        review_loop F H file rest
          {| log := store';
             fs := save_review_log file store' (fs st);
             stdin := more;
             ticks := t';
             trace := (trace st ++ turn_asks tn)
                      ++ [Reviewed (turn_note tn) (5 - d); Saved (json_dumps store')] |}
    end /\
  (forall (dct : dict) (store' : json) (t' : nat),
     log st = JDict dct ->
     update_review_log F H (log st) (turn_note tn) (5 - d) (ticks st) = Ok (store', t') ->
     exists (card : Card F) (t1 : nat),
       store' = JDict (dict_set (turn_note tn)
                         (make_record F (today_str H (now H (ticks st)))
                            (review_card F (now H t1) card (5 - d)).1
                            (review_card F (now H t1) card (5 - d)).2) dct)) /\
  map (fun x => (fun n => 5 - n) <$> accepted x) ["1"; "2"; "3"; "4"]
    = [Some 4; Some 3; Some 2; Some 1].
Proof.
  intros Hrej Hacc Hin.
  split; [exact (accepted_range _ _ Hacc) |].
  split; [unfold turn_rating; now rewrite Hacc |].
  split; [exact (review_loop_turn F H file tn d rest st more Hrej Hacc Hin) |].
  split; [| reflexivity].
  intros dct store' t' Hlog Hup. rewrite Hlog in Hup.
  destruct (update_review_log_inv F H _ _ _ _ _ _ Hup) as (card & t1 & _ & -> & _).
  now exists card, t1.
Qed.

Lemma C3_rating_is_five_minus_difficulty_witness :
  1 <= 2 <= 4 /\
  turn_rating (hd demo_quit demo_turns) = 5 - 2 /\
  review_loop demo_fsrs demo_host "/w/review_log.json"
    (turn_note (hd demo_quit demo_turns) :: ["/w/b.md"]) demo_session =
    match update_review_log demo_fsrs demo_host (log demo_session)
            (turn_note (hd demo_quit demo_turns)) (5 - 2) (ticks demo_session) with
    | Raise e =>
        (Raise e, {| log := log demo_session; fs := fs demo_session;
                     stdin := ["ok"; " 4 "; ""; "-1"; ""; "q"; "left over"];
                     ticks := ticks demo_session;
                     trace := trace demo_session ++ turn_asks (hd demo_quit demo_turns) |})
    | Ok (store', t') =>
        review_loop demo_fsrs demo_host "/w/review_log.json" ["/w/b.md"]
          {| log := store';
             fs := save_review_log "/w/review_log.json" store' (fs demo_session);
             stdin := ["ok"; " 4 "; ""; "-1"; ""; "q"; "left over"];
             ticks := t';
             trace := (trace demo_session ++ turn_asks (hd demo_quit demo_turns))
                      ++ [Reviewed (turn_note (hd demo_quit demo_turns)) (5 - 2);
                          Saved (json_dumps store')] |}
    end /\
  (forall (dct : dict) (store' : json) (t' : nat),
     log demo_session = JDict dct ->
     update_review_log demo_fsrs demo_host (log demo_session)
       (turn_note (hd demo_quit demo_turns)) (5 - 2) (ticks demo_session)
       = Ok (store', t') ->
     exists (card : Card demo_fsrs) (t1 : nat),
       store' = JDict (dict_set (turn_note (hd demo_quit demo_turns))
                         (make_record demo_fsrs
                            (today_str demo_host (now demo_host (ticks demo_session)))
                            (review_card demo_fsrs (now demo_host t1) card (5 - 2)).1
                            (review_card demo_fsrs (now demo_host t1) card (5 - 2)).2) dct)) /\
  map (fun x => (fun n => 5 - n) <$> accepted x) ["1"; "2"; "3"; "4"]
    = [Some 4; Some 3; Some 2; Some 1].
Proof.
  apply (C3_rating_is_five_minus_difficulty demo_fsrs demo_host "/w/review_log.json"
           (hd demo_quit demo_turns) 2 ["/w/b.md"] demo_session
           ["ok"; " 4 "; ""; "-1"; ""; "q"; "left over"]);
    reflexivity.
Defined.

(** The part of C1 that holds: answers that read as integers outside of
    1..4, such as 0 and 5, send the prompt round again, any number of
    times, without touching the store or the files; the answer 2 then goes
    on to the update. *)
Lemma out_of_range_answers_are_asked_again (F : Fsrs) (H : Host) (file note : string)
    (rest : list string) (st : session) (rounds : list (string * string))
    (inp : list string) :
  forallb (fun p => rejected (snd p)) rounds = true ->
  stdin st = (lines rounds ++ inp)%list ->
  rejected "0" = true /\ rejected "5" = true /\ accepted "2" = Some 2 /\
  review_loop F H file (note :: rest) st =
  review_loop F H file (note :: rest)
    {| log := log st; fs := fs st; stdin := inp; ticks := ticks st;
       trace := trace st ++ flat_map (fun _ => [Present note; Retry]) rounds |}.
Proof.
  intros Hrej Hin. do 3 (split; [reflexivity |]).
  cbn [review_loop stdin log fs ticks trace]. rewrite Hin.
  rewrite (ask_difficulty_retries _ _ _ Hrej).
  destruct (ask_difficulty note inp) as [[evs r] inp'].
  now rewrite app_assoc.
Qed.

(** ** The model on concrete inputs *)

Example py_int_examples :
  map py_int ["abc"; ""; "q"; " 2 "; "+3"; "-1"; "1_0"; "0"; "5"; "2.0"]
  = [None; None; None; Some 2; Some 3; Some (-1); Some 10; Some 0; Some 5; None].
Proof. reflexivity. Qed.

Example json_dumps_example :
  json_dumps (JList [JNum "1"; JList []; JDict []; JList [JNull]])
  = "[" +:+ str1 nl_c +:+ "    1," +:+ str1 nl_c +:+ "    []," +:+ str1 nl_c
    +:+ "    {}," +:+ str1 nl_c +:+ "    [" +:+ str1 nl_c +:+ "        null"
    +:+ str1 nl_c +:+ "    ]" +:+ str1 nl_c +:+ "]".
Proof. reflexivity. Qed.

Example json_loads_examples :
  map json_loads [""; "{"; "[1,]"; "01"; " [1 , 2.5e3] "; "{}"; "nul"]
  = [None; None; None; None; Some (JList [JNum "1"; JNum "2.5e3"]);
     Some (JDict []); None].
Proof. vm_compute. reflexivity. Qed.

(** A first run on an empty store: the catalog is the due queue, in walk
    order; difficulty 1 for the first note is rating 4, and the store then
    has one record, dated today; the reviewer quits at the second note. *)
Example first_run :
  select_notes_for_review demo_fsrs demo_host (demo_reviewer (JDict [])) 5 0
    = Ok (["/w/a.md"; "/w/b.md"; "/w/sub/c.md"], 0%nat) /\
  let '(r, st) := run demo_fsrs demo_host "/w" None ∅ [""; "1"; ""; "q"] in
  r = Ok () /\
  log st = JDict [("/w/a.md",
                   JDict [("last_reviewed", JStr "2024-01-02");
                          ("card", JDict [("due", JNum "1700345600000002");
                                          ("reps", JNum "1")]);
                          ("review_log", JDict [("rating", JNum "4")])])] /\
  trace st = [Present "/w/a.md"; Reviewed "/w/a.md" 4; Saved (json_dumps (log st));
              Present "/w/b.md"] /\
  fs st !! "/w/review_log.json" = Some (json_dumps (log st)).
Proof. vm_compute. repeat split; reflexivity. Qed.

(** * Further properties of the code *)

(** ** The catalog of notes *)

Lemma string_rev_onto_append (s acc : string) :
  string_rev_onto s acc = string_rev s +:+ acc.
Proof.
  unfold string_rev. revert acc.
  induction s as [|c s IH]; intros acc; [reflexivity |].
  cbn [string_rev_onto]. rewrite IH, (IH (String c EmptyString)).
  now rewrite append_assoc.
Qed.

Lemma string_rev_append (a b : string) :
  string_rev (a +:+ b) = string_rev b +:+ string_rev a.
Proof.
  induction a as [|c a IH].
  - rewrite append_nil_l. now rewrite append_nil_r.
  - rewrite append_cons. unfold string_rev in *. cbn [string_rev_onto].
    rewrite !(string_rev_onto_append _ (String c EmptyString)).
    unfold string_rev. rewrite IH. now rewrite append_assoc.
Qed.

Lemma prefix_append (p x y : string) :
  String.prefix p x = true -> String.prefix p (x +:+ y) = true.
Proof.
  revert x. induction p as [|c p IH]; intros x Hp.
  - now destruct (x +:+ y).
  - destruct x as [|c' x]; [discriminate |].
    rewrite append_cons. simpl in *.
    destruct (ascii_dec c c'); [now apply IH | discriminate].
Qed.

Lemma endswith_append (a b suffix : string) :
  endswith b suffix = true -> endswith (a +:+ b) suffix = true.
Proof.
  unfold endswith. intros Hb. rewrite string_rev_append. now apply prefix_append.
Qed.

(** [os.path.join] keeps the last component at the end of the path. *)
Lemma os_path_join_endswith (a p suffix : string) :
  endswith p suffix = true -> endswith (os_path_join a p) suffix = true.
Proof.
  intros Hp. unfold os_path_join.
  destruct (startswith p "/"); [exact Hp |].
  destruct (String.eqb a "" || endswith a "/")%bool.
  - now apply endswith_append.
  - apply endswith_append. now apply endswith_append.
Qed.

(** X1: the catalog holds one path per walked file whose name ends in
    [.md], and nothing else: every path of the catalog ends in [.md], and
    the catalog has as many entries as the walk has such files. *)
Theorem X1_catalog_is_the_md_files (walk : list (string * list string * list string)) :
  Forall (fun note => endswith note ".md" = true) (discover walk) /\
  length (discover walk)
  = list_sum (map (fun entry => length (md_files (snd entry))) walk).
Proof.
  unfold discover. split.
  - apply Forall_concat, Forall_map, Forall_forall.
    intros [[root dirs] files] _. apply Forall_map, Forall_forall.
    intros file Hin. apply os_path_join_endswith.
    apply list_elem_of_In, filter_In in Hin. exact (proj2 Hin).
  - induction walk as [|[[root dirs] files] walk IH]; [reflexivity |].
    cbn [map concat list_sum snd]. rewrite length_app, IH.
    unfold md_files. now rewrite length_map.
Qed.

(** ** Selection: stores without records, foreign records, broken records *)

Section MoreSelection.
Context (F : Fsrs) (H : Host).

Lemma notes_due_all_new (d : dict) (notes : list string) (t : nat) :
  Forall (fun note => dict_get note d = None) notes ->
  notes_due F H (JDict d) notes t = Ok (notes, t).
Proof.
  induction 1 as [|note rest Hnone _ IH]; [reflexivity |].
  now rewrite (notes_due_new_head F H _ _ _ _ Hnone), IH.
Qed.

Lemma notes_due_agree (d1 d2 : dict) (notes : list string) (t : nat) :
  Forall (fun note => dict_get note d1 = dict_get note d2) notes ->
  notes_due F H (JDict d1) notes t = notes_due F H (JDict d2) notes t.
Proof.
  intros Hall. revert t. induction Hall as [|note rest Heq _ IH]; intros t;
    [reflexivity |].
  cbn [notes_due py_contains py_getitem]. rewrite Heq.
  destruct (dict_get note d2) as [cd|].
  - rewrite bool_decide_eq_true_2 by eauto.
    cbn [or_raise]. unfold mbind, result_bind.
    destruct (py_getitem cd "card") as [c|]; [| reflexivity].
    destruct (Card_from_dict F c) as [card|]; [| reflexivity].
    now rewrite IH.
  - rewrite bool_decide_eq_false_2 by (intros [? ?]; discriminate).
    unfold mbind, result_bind. now rewrite IH.
Qed.

Lemma notes_due_broken_head (d : dict) (note : string) (rest : list string)
    (t : nat) (e : exn) :
  stored_card F d note = Raise e ->
  notes_due F H (JDict d) (note :: rest) t = Raise e.
Proof.
  unfold stored_card. cbn [notes_due py_contains py_getitem].
  destruct (dict_get note d) as [cd|]; [| discriminate].
  rewrite bool_decide_eq_true_2 by eauto.
  cbn [or_raise]. unfold mbind, result_bind.
  destruct (py_getitem cd "card") as [c|]; [| now intros [= ->]].
  destruct (Card_from_dict F c) as [card|]; [discriminate | now intros [= ->]].
Qed.

Lemma notes_due_later (d : dict) (notes : list string) (t : nat) :
  Forall (fun note =>
            exists card, stored_card F d note = Ok (Some card) /\
                         forall k, (t <= k < t + length notes)%nat ->
                                   now H k < Card_due F card) notes ->
  notes_due F H (JDict d) notes t = Ok ([], (t + length notes)%nat).
Proof.
  revert t. induction notes as [|note rest IH]; intros t Hall.
  - simpl. now rewrite Nat.add_0_r.
  - apply Forall_cons in Hall as [(card & Hcard & Hlate) Hall].
    unfold stored_card in Hcard.
    destruct (dict_get note d) as [cd|] eqn:Hget; [| discriminate].
    unfold mbind, result_bind in Hcard.
    destruct (py_getitem cd "card") as [c|] eqn:Hc; [| discriminate].
    destruct (Card_from_dict F c) as [card'|] eqn:Hfrom; [| discriminate].
    injection Hcard as ->.
    rewrite (notes_due_known_head F H _ _ _ _ _ _ _ Hget Hc Hfrom).
    rewrite IH.
    + destruct (Z.leb_spec (Card_due F card) (now H t)) as [Hle|_].
      * specialize (Hlate t). simpl in Hlate. lia.
      * simpl. do 2 f_equal. lia.
    + eapply Forall_impl; [exact Hall |].
      intros n (card2 & ? & Hl). exists card2. split; [assumption |].
      intros k Hk. apply Hl. simpl. lia.
Qed.

End MoreSelection.

(** X2: when no note of the catalog has a record (a first run, or a store
    that only knows other notes), selection is the slice [[:q]] of the
    catalog itself, whatever the engine, and the clock is not read. *)
Theorem X2_selection_without_records (F : Fsrs) (H : Host) (self : NoteReviewer)
    (d : dict) (q : Z) (t : nat) :
  review_log self = JDict d ->
  Forall (fun note => dict_get note d = None) (discover (os_walk H (notes_path self))) ->
  select_notes_for_review F H self q t
  = Ok (slice_to (discover (os_walk H (notes_path self))) q, t).
Proof.
  intros Hlog Hnew. unfold select_notes_for_review.
  now rewrite Hlog, (notes_due_all_new F H _ _ _ Hnew).
Qed.

Lemma X2_selection_without_records_witness :
  select_notes_for_review demo_fsrs one_note_host
    (demo_reviewer (JDict [("/w/old.md", JNull)])) 5 3
  = Ok (slice_to (discover (os_walk one_note_host "/w")) 5, 3%nat).
Proof.
  apply (X2_selection_without_records demo_fsrs one_note_host
           (demo_reviewer (JDict [("/w/old.md", JNull)])) [("/w/old.md", JNull)] 5 3).
  - reflexivity.
  - repeat constructor.
Defined.

(** X3: selection looks only at the records of the notes of the catalog:
    two stores that hold the same record, or none, for each of them give
    the same selection, whatever else they hold. *)
Theorem X3_selection_ignores_other_records (F : Fsrs) (H : Host)
    (self1 self2 : NoteReviewer) (d1 d2 : dict) (q : Z) (t : nat) :
  review_log self1 = JDict d1 -> review_log self2 = JDict d2 ->
  notes_path self1 = notes_path self2 ->
  Forall (fun note => dict_get note d1 = dict_get note d2)
         (discover (os_walk H (notes_path self1))) ->
  select_notes_for_review F H self1 q t = select_notes_for_review F H self2 q t.
Proof.
  intros Hlog1 Hlog2 Hpath Hagree. unfold select_notes_for_review.
  now rewrite Hlog1, Hlog2, <- Hpath, (notes_due_agree F H _ _ _ _ Hagree).
Qed.

Lemma X3_selection_ignores_other_records_witness :
  select_notes_for_review demo_fsrs demo_host (demo_reviewer (JDict (demo_store 0))) 5 0
  = select_notes_for_review demo_fsrs demo_host
      (demo_reviewer (JDict (("/w/gone.md", JNull) :: demo_store 0))) 5 0.
Proof.
  apply (X3_selection_ignores_other_records demo_fsrs demo_host
           (demo_reviewer (JDict (demo_store 0)))
           (demo_reviewer (JDict (("/w/gone.md", JNull) :: demo_store 0)))
           (demo_store 0) (("/w/gone.md", JNull) :: demo_store 0) 5 0);
    try reflexivity.
  repeat constructor.
Defined.

(** X4: a record the engine cannot read stops selection: when the first
    such record belongs to [note], with the records of the notes before it
    readable, selection raises the exception of that record ([KeyError] for
    a record without a [card]), and [review_notes] ends with it before
    anything is shown, read or written. *)
Theorem X4_broken_record_stops_selection (F : Fsrs) (H : Host) (self : NoteReviewer)
    (d : dict) (pre post : list string) (note : string) (e : exn) (q : Z)
    (st : session) :
  review_log self = JDict d ->
  discover (os_walk H (notes_path self)) = (pre ++ note :: post)%list ->
  readable F d pre = true ->
  stored_card F d note = Raise e ->
  select_notes_for_review F H self q (ticks st) = Raise e /\
  review_notes F H self st = (Raise e, st).
Proof.
  intros Hlog Hwalk Hpre Hbad.
  assert (select_notes_for_review F H self 5 (ticks st) = Raise e /\
          select_notes_for_review F H self q (ticks st) = Raise e) as [H5 Hq].
  { unfold select_notes_for_review. rewrite Hlog, Hwalk, notes_due_app.
    destruct (notes_due_total F H d pre (ticks st) Hpre) as (l & t1 & ->).
    rewrite (notes_due_broken_head F H _ _ _ _ _ Hbad). now split. }
  split; [exact Hq |]. unfold review_notes. now rewrite H5.
Qed.

Lemma X4_broken_record_stops_selection_witness :
  select_notes_for_review demo_fsrs demo_host (demo_reviewer (JDict cardless_store)) 5
    (ticks demo_session) = Raise KeyError /\
  review_notes demo_fsrs demo_host (demo_reviewer (JDict cardless_store)) demo_session
  = (Raise KeyError, demo_session).
Proof.
  apply (X4_broken_record_stops_selection demo_fsrs demo_host
           (demo_reviewer (JDict cardless_store)) cardless_store
           [] ["/w/b.md"; "/w/sub/c.md"] "/w/a.md" KeyError 5 demo_session);
    reflexivity.
Defined.

(** X5: a limit below zero is a Python slice bound: [q = -k] drops the
    last [k] due notes (all of them when fewer are due), and [q = 0]
    selects nothing. *)
Theorem X5_limit_at_or_below_zero (F : Fsrs) (H : Host) (self : NoteReviewer)
    (d : dict) (q : Z) (t : nat) :
  review_log self = JDict d ->
  q <= 0 ->
  readable F d (discover (os_walk H (notes_path self))) = true ->
  exists due t',
    notes_due F H (JDict d) (discover (os_walk H (notes_path self))) t = Ok (due, t') /\
    (q < 0 -> select_notes_for_review F H self q t
              = Ok (take (length due - Z.to_nat (- q)) due, t')) /\
    (q = 0 -> select_notes_for_review F H self q t = Ok ([], t')).
Proof.
  intros Hlog Hq Hr.
  destruct (notes_due_total F H d _ t Hr) as (due & t' & Hdue).
  exists due, t'. split; [exact Hdue |].
  unfold select_notes_for_review. rewrite Hlog, Hdue.
  cbn [mbind result_bind]. unfold slice_to. split.
  - intros Hneg. destruct (Z.leb_spec 0 q) as [Hq0|_]; [lia |].
    do 3 f_equal. lia.
  - intros ->. reflexivity.
Qed.

Lemma X5_limit_at_or_below_zero_witness :
  exists due t',
    notes_due demo_fsrs demo_host (JDict (demo_store 0))
      (discover (os_walk demo_host "/w")) 0 = Ok (due, t') /\
    (-1 < 0 -> select_notes_for_review demo_fsrs demo_host
                 (demo_reviewer (JDict (demo_store 0))) (-1) 0
               = Ok (take (length due - Z.to_nat (- -1)) due, t')) /\
    (-1 = 0 -> select_notes_for_review demo_fsrs demo_host
                 (demo_reviewer (JDict (demo_store 0))) (-1) 0 = Ok ([], t')).
Proof.
  apply (X5_limit_at_or_below_zero demo_fsrs demo_host
           (demo_reviewer (JDict (demo_store 0))) (demo_store 0) (-1) 0);
    [reflexivity | lia | reflexivity].
Defined.

Example limit_minus_one :
  select_notes_for_review demo_fsrs demo_host (demo_reviewer (JDict [])) (-1) 0
  = Ok (["/w/a.md"; "/w/b.md"], 0%nat).
Proof. reflexivity. Qed.

(** X6: when every note of the catalog has a card that is due later than
    the clock readings taken for the selection, nothing is selected and
    [review_notes] returns at once: nothing is shown, no line is read, the
    store and the files stay as they are. *)
Theorem X6_nothing_due_nothing_asked (F : Fsrs) (H : Host) (self : NoteReviewer)
    (d : dict) (st : session) :
  review_log self = JDict d ->
  Forall (fun note =>
            exists card,
              stored_card F d note = Ok (Some card) /\
              forall k, (ticks st <= k
                         < ticks st + length (discover (os_walk H (notes_path self))))%nat ->
                        now H k < Card_due F card)
         (discover (os_walk H (notes_path self))) ->
  select_notes_for_review F H self 5 (ticks st)
  = Ok ([], (ticks st + length (discover (os_walk H (notes_path self))))%nat) /\
  review_notes F H self st
  = (Ok (),
     {| log := log st; fs := fs st; stdin := stdin st;
        ticks := ticks st + length (discover (os_walk H (notes_path self)));
        trace := trace st |}).
Proof.
  intros Hlog Hlate.
  assert (select_notes_for_review F H self 5 (ticks st)
          = Ok ([], (ticks st + length (discover (os_walk H (notes_path self))))%nat))
    as Hsel.
  { unfold select_notes_for_review.
    now rewrite Hlog, (notes_due_later F H _ _ _ Hlate). }
  split; [exact Hsel |]. unfold review_notes. now rewrite Hsel.
Qed.

Lemma X6_nothing_due_nothing_asked_witness :
  select_notes_for_review demo_fsrs one_note_host
    (demo_reviewer (JDict (demo_store 1800000000000000))) 5 (ticks demo_session)
  = Ok ([], (ticks demo_session
             + length (discover (os_walk one_note_host "/w")))%nat) /\
  review_notes demo_fsrs one_note_host
    (demo_reviewer (JDict (demo_store 1800000000000000))) demo_session
  = (Ok (),
     {| log := log demo_session; fs := fs demo_session; stdin := stdin demo_session;
        ticks := ticks demo_session + length (discover (os_walk one_note_host "/w"));
        trace := trace demo_session |}).
Proof.
  apply (X6_nothing_due_nothing_asked demo_fsrs one_note_host
           (demo_reviewer (JDict (demo_store 1800000000000000)))
           (demo_store 1800000000000000) demo_session).
  - reflexivity.
  - constructor; [| constructor].
    exists (1800000000000000, 1). split; [reflexivity |].
    intros k Hk. change (1700000000000000 + Z.of_nat k < 1800000000000000).
    change (0 <= k < 1)%nat in Hk. lia.
Defined.

(** ** Updates: new notes, broken records, stores that are no dicts *)

(** X7: rating a note that has no record cannot fail: the engine reviews
    a fresh [Card()], and the new record, dated today, is added after the
    records the store has, which stay as they are. *)
Theorem X7_first_rating_of_a_note (F : Fsrs) (H : Host) (d : dict)
    (note : string) (rating : Z) (t : nat) :
  dict_get note d = None ->
  update_review_log F H (JDict d) note rating t
  = Ok (JDict (d ++ [(note,
                      make_record F (today_str H (now H t))
                        (review_card F (now H (S (S t)))
                           (Card_new F (now H (S t))) rating).1
                        (review_card F (now H (S (S t)))
                           (Card_new F (now H (S t))) rating).2)])%list,
        S (S (S t))).
Proof.
  intros Hnone. unfold update_review_log. cbn [py_contains py_setitem].
  rewrite Hnone, bool_decide_eq_false_2 by (intros [? ?]; discriminate).
  unfold mbind, result_bind.
  destruct (review_card F (now H (S (S t))) (Card_new F (now H (S t))) rating)
    as [card' rl'].
  rewrite dict_set_fresh; [reflexivity |]. now apply dict_get_None.
Qed.

Lemma X7_first_rating_of_a_note_witness :
  update_review_log demo_fsrs demo_host (JDict (demo_store 0)) "/w/b.md" 4 0
  = Ok (JDict (demo_store 0 ++
               [("/w/b.md",
                 make_record demo_fsrs (today_str demo_host (now demo_host 0))
                   (review_card demo_fsrs (now demo_host 2)
                      (Card_new demo_fsrs (now demo_host 1)) 4).1
                   (review_card demo_fsrs (now demo_host 2)
                      (Card_new demo_fsrs (now demo_host 1)) 4).2)])%list,
        3%nat).
Proof.
  apply (X7_first_rating_of_a_note demo_fsrs demo_host (demo_store 0) "/w/b.md" 4 0).
  reflexivity.
Defined.

(** X8: the update reads the stored review log although it does not use
    it.  A record with a readable card but without a readable review log
    passes selection, and the rating of its note then raises the exception
    of the review log ([KeyError] when the key is missing): the session
    ends with it after the answer, the store and the files unchanged. *)
Theorem X8_record_without_review_log (F : Fsrs) (H : Host) (file : string)
    (d : dict) (tn : turn) (card : Card F) (e : exn) (rest : list string)
    (st : session) (more : list string) :
  log st = JDict d ->
  stored_card F d (turn_note tn) = Ok (Some card) ->
  stored_review_log F d (turn_note tn) = Raise e ->
  rating_turn tn = true ->
  stdin st = (turn_lines tn ++ more)%list ->
  readable F d [turn_note tn] = true /\
  (forall rating t, update_review_log F H (JDict d) (turn_note tn) rating t = Raise e) /\
  review_loop F H file (turn_note tn :: rest) st
  = (Raise e, {| log := log st; fs := fs st; stdin := more; ticks := ticks st;
                 trace := trace st ++ turn_asks tn |}).
Proof.
  intros Hlog Hcard Hrl Hturn Hin.
  assert (forall rating t,
            update_review_log F H (JDict d) (turn_note tn) rating t = Raise e) as Hup.
  { intros rating t. unfold stored_card, stored_review_log in *.
    unfold update_review_log. cbn [py_contains py_getitem].
    destruct (dict_get (turn_note tn) d) as [cd|]; [| discriminate].
    rewrite bool_decide_eq_true_2 by eauto.
    cbn [or_raise]. unfold mbind, result_bind in *.
    destruct (py_getitem cd "card") as [c|]; [| discriminate].
    destruct (Card_from_dict F c) as [card0|]; [| discriminate].
    destruct (py_getitem cd "review_log") as [r|]; [| now injection Hrl as ->].
    destruct (ReviewLog_from_dict F r) as [rl|]; [discriminate |].
    now injection Hrl as ->. }
  split; [| split; [exact Hup |]].
  - unfold readable. cbn [forallb]. now rewrite Hcard.
  - unfold rating_turn in Hturn. apply andb_prop in Hturn as [Hrej Hacc].
    apply bool_decide_eq_true in Hacc. destruct Hacc as [dv Hacc].
    rewrite (review_loop_turn F H file tn dv rest st more Hrej Hacc Hin).
    now rewrite Hlog, Hup.
Qed.

Lemma X8_record_without_review_log_witness :
  readable demo_fsrs logless_store [turn_note (hd demo_quit demo_turns)] = true /\
  (forall rating t,
     update_review_log demo_fsrs demo_host (JDict logless_store)
       (turn_note (hd demo_quit demo_turns)) rating t = Raise KeyError) /\
  review_loop demo_fsrs demo_host "/w/review_log.json"
    (turn_note (hd demo_quit demo_turns) :: ["/w/b.md"])
    {| log := JDict logless_store; fs := ∅; stdin := stdin demo_session;
       ticks := 0; trace := [] |}
  = (Raise KeyError,
     {| log := JDict logless_store; fs := ∅;
        stdin := ["ok"; " 4 "; ""; "-1"; ""; "q"; "left over"]; ticks := 0;
        trace := [] ++ turn_asks (hd demo_quit demo_turns) |}).
Proof.
  apply (X8_record_without_review_log demo_fsrs demo_host "/w/review_log.json"
           logless_store (hd demo_quit demo_turns) (17, 1) KeyError ["/w/b.md"]
           {| log := JDict logless_store; fs := ∅; stdin := stdin demo_session;
              ticks := 0; trace := [] |}
           ["ok"; " 4 "; ""; "-1"; ""; "q"; "left over"]);
    reflexivity.
Defined.






(** X10: a store that is not a dict (a log file that holds a list, a
    string, a number, [true], [false] or [null]) is never updated: every
    update raises [TypeError], so the rating of a note ends the session
    with it, the store and the files unchanged. *)
Theorem X10_store_that_is_no_dict (F : Fsrs) (H : Host) (file : string)
    (tn : turn) (rest : list string) (st : session) (more : list string) :
  is_dict (log st) = false ->
  rating_turn tn = true ->
  stdin st = (turn_lines tn ++ more)%list ->
  (forall note rating t, update_review_log F H (log st) note rating t = Raise TypeError) /\
  review_loop F H file (turn_note tn :: rest) st
  = (Raise TypeError,
     {| log := log st; fs := fs st; stdin := more; ticks := ticks st;
        trace := trace st ++ turn_asks tn |}).
Proof.
  intros Hnd Hturn Hin.
  assert (forall note rating t,
            update_review_log F H (log st) note rating t = Raise TypeError) as Hup.
  { intros note rating t. unfold update_review_log.
    destruct (log st) as [|b|x|s|l|d]; try discriminate Hnd; try reflexivity.
    - cbn [py_contains py_getitem py_setitem]. unfold mbind, result_bind.
      destruct (is_substring note s); [reflexivity |].
      now destruct (review_card F _ _ rating).
    - cbn [py_contains py_getitem py_setitem]. unfold mbind, result_bind.
      destruct (existsb (is_str note) l); [reflexivity |].
      now destruct (review_card F _ _ rating). }
  split; [exact Hup |].
  unfold rating_turn in Hturn. apply andb_prop in Hturn as [Hrej Hacc].
  apply bool_decide_eq_true in Hacc. destruct Hacc as [dv Hacc].
  rewrite (review_loop_turn F H file tn dv rest st more Hrej Hacc Hin).
  now rewrite Hup.
Qed.

Lemma X10_store_that_is_no_dict_witness :
  (forall note rating t,
     update_review_log demo_fsrs demo_host (log list_session) note rating t
     = Raise TypeError) /\
  review_loop demo_fsrs demo_host "/w/review_log.json"
    (turn_note (hd demo_quit demo_turns) :: ["/w/b.md"]) list_session
  = (Raise TypeError,
     {| log := log list_session; fs := fs list_session;
        stdin := ["ok"; " 4 "; ""; "-1"; ""; "q"; "left over"];
        ticks := ticks list_session;
        trace := trace list_session ++ turn_asks (hd demo_quit demo_turns) |}).
Proof.
  apply (X10_store_that_is_no_dict demo_fsrs demo_host "/w/review_log.json"
           (hd demo_quit demo_turns) ["/w/b.md"] list_session
           ["ok"; " 4 "; ""; "-1"; ""; "q"; "left over"]);
    reflexivity.
Defined.

(** ** Sessions, whatever is typed *)

Lemma reviewed_app (a b : list event) :
  reviewed (a ++ b)%list = (reviewed a ++ reviewed b)%list.
Proof. unfold reviewed. apply omap_app. Qed.

(** The prompt only prints: it reviews nothing and saves nothing, it reads
    lines from the front of the input, and a difficulty it returns is one
    of 1..4. *)
Lemma ask_difficulty_effects (n : nat) (note : string) (inp : list string) :
  (length inp <= n)%nat ->
  saves (ask_difficulty note inp).1.1 = [] /\
  reviewed (ask_difficulty note inp).1.1 = [] /\
  (ask_difficulty note inp).2 `suffix_of` inp /\
  (forall d, (ask_difficulty note inp).1.2 = Ok (Difficulty d) -> 1 <= d <= 4).
Proof.
  revert inp. induction n as [|n IH]; intros inp Hlen.
  - destruct inp; [| simpl in Hlen; lia].
    split; [reflexivity |]. split; [reflexivity |]. split; [reflexivity |].
    intros d Hd. discriminate Hd.
  - destruct inp as [|ack [|x rest]].
    + split; [reflexivity |]. split; [reflexivity |]. split; [reflexivity |].
      intros d Hd. discriminate Hd.
    + split; [reflexivity |]. split; [reflexivity |]. split; [apply suffix_nil |].
      intros d Hd. discriminate Hd.
    + assert (rest `suffix_of` ack :: x :: rest) as Hrest
          by (do 2 apply suffix_cons_r; reflexivity).
      cbn [ask_difficulty].
      destruct (String.eqb x "q").
      { split; [reflexivity |]. split; [reflexivity |]. split; [exact Hrest |].
        intros d Hd. discriminate Hd. }
      destruct (py_int x) as [m|].
      2:{ split; [reflexivity |]. split; [reflexivity |]. split; [exact Hrest |].
          intros d Hd. discriminate Hd. }
      unfold difficulty_schema_validate.
      destruct ((1 <=? m) && (m <=? 4))%bool eqn:Hm.
      { split; [reflexivity |]. split; [reflexivity |]. split; [exact Hrest |].
        cbn [fst snd]. intros d [= <-].
        apply andb_prop in Hm as [H1 H4]. lia. }
      destruct (IH rest ltac:(simpl in Hlen; lia)) as (Hs & Hr & Hsuf & Hd).
      destruct (ask_difficulty note rest) as [[evs r] rest'].
      cbn [fst snd] in *.
      split; [exact Hs |]. split; [exact Hr |].
      split; [etrans; [exact Hsuf | exact Hrest] | exact Hd].
Qed.

Section Invariant.
Context (F : Fsrs) (H : Host) (file : string).

Lemma review_loop_invariant (notes : list string) (st : session) :
  exists evs,
    session_invariant file notes st (review_loop F H file notes st).2 evs.
Proof.
  revert st. induction notes as [|note rest IH]; intros st.
  - exists []. unfold session_invariant. cbn [review_loop snd].
    rewrite app_nil_r.
    split; [reflexivity |]. split; [apply prefix_nil |]. split; [constructor |].
    split; [reflexivity |]. split; [reflexivity |]. now split.
  - cbn [review_loop].
    destruct (ask_difficulty_effects (length (stdin st)) note (stdin st) (le_n _))
      as (Hs & Hr & Hsuf & Hd).
    destruct (ask_difficulty note (stdin st)) as [[evs0 ans] inp'].
    cbn [fst snd] in Hs, Hr, Hsuf, Hd.
    assert (session_invariant file (note :: rest) st
              {| log := log st; fs := fs st; stdin := inp'; ticks := ticks st;
                 trace := trace st ++ evs0 |} evs0) as Hstop.
    { unfold session_invariant. cbn [trace log fs stdin]. rewrite Hs, Hr.
      split; [reflexivity |]. split; [apply prefix_nil |]. split; [constructor |].
      split; [reflexivity |]. split; [reflexivity |]. now split. }
    destruct ans as [[|dv]|e]; cbn [snd]; try (now exists evs0).
    cbn [log ticks fs trace].
    destruct (update_review_log F H (log st) note (5 - dv) (ticks st))
      as [[store' t']|e] eqn:Hup; cbn [snd]; [| now exists evs0].
    match goal with |- context [review_loop F H file rest ?s] => set (st2 := s) end.
    assert (fs st2 = <[file := json_dumps store']> (fs st)) as Hfs2
        by apply save_review_log_insert.
    assert (log st2 = store') as Hlog2 by reflexivity.
    assert (stdin st2 = inp') as Hin2 by reflexivity.
    assert (trace st2
            = (trace st ++ evs0)
              ++ [Reviewed note (5 - dv); Saved (json_dumps store')])%list
      as Htr2 by reflexivity.
    destruct (IH st2) as (evs2 & Htr & Hpre & Hrat & Hlen & Hother & Hlast & Hin).
    set (st' := (review_loop F H file rest st2).2) in *.
    clearbody st2 st'.
    exists (evs0 ++ [Reviewed note (5 - dv); Saved (json_dumps store')] ++ evs2)%list.
    unfold session_invariant.
    rewrite !reviewed_app, !saves_app, Hs, Hr. cbn [app].
    change (reviewed [Reviewed note (5 - dv); Saved (json_dumps store')])
      with [(note, 5 - dv)].
    change (saves [Reviewed note (5 - dv); Saved (json_dumps store')])
      with [json_dumps store'].
    cbn [app].
    split; [rewrite Htr, Htr2; now rewrite <- !app_assoc |].
    split; [cbn [map fst]; now apply prefix_cons |].
    split.
    { constructor; [| exact Hrat]. cbn [snd]. specialize (Hd dv eq_refl). lia. }
    split; [simpl; now rewrite Hlen |].
    split.
    { intros other Hne. rewrite (Hother other Hne), Hfs2.
      apply lookup_insert_ne. congruence. }
    split; [| rewrite Hin2 in Hin; etrans; [exact Hin | exact Hsuf]].
    rewrite last_cons.
    destruct (last (saves evs2)) as [text|].
    + destruct Hlast as [Htext Hfs]. split; [exact Htext |].
      now rewrite Hfs, Hfs2, insert_insert_eq.
    + destruct Hlast as [Hlog Hfs]. now rewrite Hlog, Hfs, Hlog2, Hfs2.
Qed.

Lemma new_events_of_invariant (notes : list string) (st st' : session)
    (evs : list event) :
  session_invariant file notes st st' evs -> new_events st st' = evs.
Proof.
  intros (Htr & _). unfold new_events. rewrite Htr. apply drop_app_length.
Qed.

End Invariant.


(** X12: whatever is typed, the engine is only asked for ratings from 1 to
    4. *)
Theorem X12_ratings_are_between_one_and_four (F : Fsrs) (H : Host) (file : string)
    (notes : list string) (st : session) :
  Forall (fun p => 1 <= snd p <= 4)
         (reviewed (new_events st (review_loop F H file notes st).2)).
Proof.
  destruct (review_loop_invariant F H file notes st) as (evs & Hinv).
  rewrite (new_events_of_invariant file _ _ _ _ Hinv).
  now destruct Hinv as (_ & _ & Hrat & _).
Qed.

(** X13: whatever is typed, the notes that get rated are the first notes
    of the queue, in the order of the queue, none left out and none rated
    twice, and there is one save for each rating. *)
Theorem X13_ratings_follow_the_queue (F : Fsrs) (H : Host) (file : string)
    (notes : list string) (st : session) :
  let evs := new_events st (review_loop F H file notes st).2 in
  map fst (reviewed evs) `prefix_of` notes /\
  length (saves evs) = length (reviewed evs).
Proof.
  intros evs. subst evs.
  destruct (review_loop_invariant F H file notes st) as (evs & Hinv).
  rewrite (new_events_of_invariant file _ _ _ _ Hinv).
  now destruct Hinv as (_ & Hpre & _ & Hlen & _).
Qed.

(** X14: a call of [review_notes] rates and saves at most five times,
    however many notes are due and whatever the store is. *)
Theorem X14_at_most_five_saves (F : Fsrs) (H : Host) (self : NoteReviewer)
    (st : session) :
  (length (saves (new_events st (review_notes F H self st).2)) <= 5)%nat.
Proof.
  unfold review_notes, select_notes_for_review.
  destruct (notes_due F H (review_log self) _ (ticks st)) as [[due t']|e];
    cbn [mbind result_bind snd].
  2:{ unfold new_events. rewrite drop_all. cbn. lia. }
  match goal with |- context [review_loop F H ?f ?n ?s] =>
    destruct (review_loop_invariant F H f n s) as (evs & Hinv);
    set (st0 := s) in *
  end.
  assert (new_events st (review_loop F H (review_log_file self) (slice_to due 5) st0).2
          = evs) as ->.
  { destruct Hinv as (Htr & _). unfold new_events. rewrite Htr.
    subst st0. cbn [trace]. apply drop_app_length. }
  destruct Hinv as (_ & Hpre & _ & Hlen & _).
  destruct Hpre as (k & Hk). apply (f_equal length) in Hk.
  rewrite length_app, length_map, slice_to_nonneg, length_take in Hk by lia.
  lia.
Qed.

(** ** Across sessions *)






(** ** Answers that end the session *)

(** X16: an answer that is not [q] and that [int] cannot read, given after
    any number of answers that were sent back, ends the session with
    [ValueError]: the rest of the queue is not shown, and the store and the
    files stay as they were. *)
Theorem X16_unreadable_answer_raises (F : Fsrs) (H : Host) (file : string)
    (tn : turn) (rest : list string) (st : session) (more : list string) :
  retries_rejected tn = true ->
  py_int (turn_answer tn) = None ->
  turn_answer tn <> "q" ->
  stdin st = (turn_lines tn ++ more)%list ->
  review_loop F H file (turn_note tn :: rest) st
  = (Raise ValueError,
     {| log := log st; fs := fs st; stdin := more; ticks := ticks st;
        trace := trace st ++ turn_asks tn |}).
Proof.
  intros Hrej Hint Hq Hin. cbn [review_loop]. rewrite Hin.
  unfold turn_lines, turn_asks. rewrite <- app_assoc.
  rewrite (ask_difficulty_retries _ _ _ Hrej).
  change ([turn_ack tn; turn_answer tn] ++ more)%list
    with (turn_ack tn :: turn_answer tn :: more).
  now rewrite (ask_difficulty_not_int _ _ _ _ Hint Hq).
Qed.

Lemma X16_unreadable_answer_raises_witness :
  review_loop demo_fsrs demo_host "/w/review_log.json"
    ["/w/a.md"; "/w/b.md"]
    {| log := JDict []; fs := ∅; stdin := [""; "9"; ""; "q "; ""; "2"];
       ticks := 0; trace := [] |}
  = (Raise ValueError,
     {| log := JDict []; fs := ∅; stdin := [""; "2"]; ticks := 0;
        trace := [Present "/w/a.md"; Retry; Present "/w/a.md"] |}).
Proof.
  apply (X16_unreadable_answer_raises demo_fsrs demo_host "/w/review_log.json"
           {| turn_note := "/w/a.md"; turn_retries := [("", "9")];
              turn_ack := ""; turn_answer := "q " |}
           ["/w/b.md"]
           {| log := JDict []; fs := ∅; stdin := [""; "9"; ""; "q "; ""; "2"];
              ticks := 0; trace := [] |}
           [""; "2"]).
  - reflexivity.
  - reflexivity.
  - discriminate.
  - reflexivity.
Defined.

(** X17: when the input ends at a prompt (no line is left, or the
    acknowledgement only), after any number of answers that were sent
    back, the session ends with [EOFError], the store and the files as
    they were. *)
Theorem X17_end_of_input_raises (F : Fsrs) (H : Host) (file note : string)
    (rounds : list (string * string)) (tail rest : list string) (st : session) :
  forallb (fun p => rejected (snd p)) rounds = true ->
  (length tail < 2)%nat ->
  stdin st = (lines rounds ++ tail)%list ->
  review_loop F H file (note :: rest) st
  = (Raise EOFError,
     {| log := log st; fs := fs st; stdin := []; ticks := ticks st;
        trace := trace st ++ flat_map (fun _ => [Present note; Retry]) rounds
                          ++ [Present note] |}).
Proof.
  intros Hrej Hlen Hin. cbn [review_loop]. rewrite Hin.
  rewrite (ask_difficulty_retries _ _ _ Hrej).
  destruct tail as [|ack [|x tail]]; [reflexivity | reflexivity |].
  simpl in Hlen. lia.
Qed.

Lemma X17_end_of_input_raises_witness :
  review_loop demo_fsrs demo_host "/w/review_log.json"
    ["/w/a.md"; "/w/b.md"]
    {| log := JDict []; fs := ∅; stdin := [""; "0"; "ok"];
       ticks := 0; trace := [] |}
  = (Raise EOFError,
     {| log := JDict []; fs := ∅; stdin := []; ticks := 0;
        trace := [Present "/w/a.md"; Retry; Present "/w/a.md"] |}).
Proof.
  apply (X17_end_of_input_raises demo_fsrs demo_host "/w/review_log.json" "/w/a.md"
           [("", "0")] ["ok"] ["/w/b.md"]
           {| log := JDict []; fs := ∅; stdin := [""; "0"; "ok"];
              ticks := 0; trace := [] |}).
  - reflexivity.
  - simpl. lia.
  - reflexivity.
Defined.

(** ** White space around an answer *)

Lemma lstrip_blank_append (l s : string) :
  blank l = true -> lstrip (l +:+ s) = lstrip s.
Proof.
  induction l as [|c l IH]; intros Hl; [reflexivity |].
  cbn [blank] in Hl. apply andb_prop in Hl as [Hc Hl].
  rewrite append_cons. cbn [lstrip]. rewrite Hc. now apply IH.
Qed.

Lemma lstrip_append_blank (x r : string) :
  blank r = true ->
  lstrip (x +:+ r) = if blank x then EmptyString else lstrip x +:+ r.
Proof.
  intros Hr. induction x as [|c x IH].
  - rewrite append_nil_l. cbn [blank].
    rewrite <- (append_nil_r r). now rewrite (lstrip_blank_append r "" Hr).
  - rewrite append_cons. cbn [lstrip blank].
    destruct (py_isspace c); [exact IH | reflexivity].
Qed.

Lemma blank_append (a b : string) : blank (a +:+ b) = (blank a && blank b)%bool.
Proof.
  induction a as [|c a IH]; [reflexivity |].
  rewrite append_cons. cbn [blank]. rewrite IH. now rewrite andb_assoc.
Qed.

Lemma blank_string_rev (s : string) : blank (string_rev s) = blank s.
Proof.
  induction s as [|c s IH]; [reflexivity |].
  change (String c s) with (String c EmptyString +:+ s) at 1.
  rewrite string_rev_append, blank_append, IH. cbn [blank string_rev string_rev_onto].
  rewrite andb_true_r. apply andb_comm.
Qed.

Lemma strip_blanks (l x r : string) :
  blank l = true -> blank r = true -> strip (l +:+ x +:+ r) = strip x.
Proof.
  intros Hl Hr. unfold strip.
  rewrite (lstrip_blank_append l _ Hl), (lstrip_append_blank x r Hr).
  destruct (blank x) eqn:Hx.
  - rewrite <- (append_nil_r x) at 1. now rewrite (lstrip_blank_append x "" Hx).
  - rewrite string_rev_append. rewrite lstrip_blank_append; [reflexivity |].
    now rewrite blank_string_rev.
Qed.

(** X18: white space around an answer does not count: with blanks before
    and after it, an answer is read as the same integer, or is as
    unreadable, as without them; it is accepted with the same difficulty,
    or sent back, alike. *)
Theorem X18_blanks_around_an_answer (l x r : string) :
  blank l = true -> blank r = true ->
  py_int (l +:+ x +:+ r) = py_int x /\
  accepted (l +:+ x +:+ r) = accepted x /\
  rejected (l +:+ x +:+ r) = rejected x.
Proof.
  intros Hl Hr.
  assert (py_int (l +:+ x +:+ r) = py_int x) as Hint.
  { unfold py_int. now rewrite (strip_blanks l x r Hl Hr). }
  unfold accepted, rejected. rewrite Hint. now split.
Qed.

Lemma X18_blanks_around_an_answer_witness :
  py_int ("  " +:+ "-1_0" +:+ " ") = py_int "-1_0" /\
  accepted ("  " +:+ "-1_0" +:+ " ") = accepted "-1_0" /\
  rejected ("  " +:+ "-1_0" +:+ " ") = rejected "-1_0".
Proof.
  apply (X18_blanks_around_an_answer "  " "-1_0" " "); reflexivity.
Defined.

(** ** From one run to the next *)


